(** * Category encoding and feature assembly of [app.py]

    A shallow embedding of the part of the Streamlit script [app.py] that
    turns the form's localized choices into the feature row handed to the
    two models:

    - lines 749-750: the reference table [data] and the dropped index column;
    - lines 752-827 and 836-903: the per-locale option catalogs;
    - lines 829-834: the loop that fits one [LabelEncoder] per text column;
    - lines 907-931: the choices, their canonical codes and the row [X];
    - lines 937-949: [damage_map] and the displayed damage class.

    Python exceptions are values of [exception]; the module-level variables
    [data] and [encoders] form the [Store] threaded by the monad [M].
    scikit-learn's [LabelEncoder] and the pandas operations the script calls
    are modelled after their documented behaviour. *)

From stdpp Require Import gmap strings list sorting.
From Stdlib Require Import QArith Lqa.

Local Open Scope string_scope.
Local Open Scope Z_scope.

(** ** Exceptions and results *)

Inductive dict_key : Type :=
  | StrKey (s : string)
  | IntKey (z : Z).

(** The exceptions the modelled lines can raise.  [ValueError v] is the
    [ValueError("y contains previously unseen labels: ...")] of
    [LabelEncoder.transform], carrying the offending label. *)
Inductive exception : Type :=
  | KeyError (k : dict_key)
  | ValueError (label : string)
  | IndexError.

Inductive result (A : Type) : Type :=
  | Ok (a : A)
  | Raise (e : exception).
Arguments Ok {A} a.
Arguments Raise {A} e.

Definition rbind {A B} (r : result A) (k : A → result B) : result B :=
  match r with
  | Ok a => k a
  | Raise e => Raise e
  end.

(** ** LabelEncoder *)

Module LabelEncoder.

(** A fitted encoder: [classes_] holds the label of each class, and the code
    of a label is its position there. *)
Record t : Type := Build { classes_ : list string }.

(** [sorted(set(values))], what scikit-learn computes for a column of
    Python strings.  Python compares [str] by code point, which on UTF-8
    bytes is the bytewise order [String.le]. *)
Definition unique (values : list string) : list string :=
  merge_sort String.le (elements (list_to_set values : gset string)).

Definition fit (y : list string) : t := {| classes_ := unique y |}.

(** Position of [v] in [classes]. *)
Fixpoint index_of (v : string) (classes : list string) : option nat :=
  match classes with
  | [] => None
  | c :: rest => if decide (c = v) then Some O else S <$> index_of v rest
  end.

Definition encode_label (le : t) (v : string) : result Z :=
  match index_of v (classes_ le) with
  | Some i => Ok (Z.of_nat i)
  | None => Raise (ValueError v)
  end.

(** [le.transform(y)]: the code of each label, or the [ValueError] of the
    first label that is not in [classes_]. *)
Fixpoint transform (le : t) (y : list string) : result (list Z) :=
  match y with
  | [] => Ok []
  | v :: rest =>
      rbind (encode_label le v) (λ c,
      rbind (transform le rest) (λ cs, Ok (c :: cs)))
  end.

(** [le.inverse_transform(codes)]: the label at each code, or a
    [ValueError] when a code is outside [0 .. len(classes_) - 1]. *)
Definition decode_label (le : t) (c : Z) : result string :=
  if decide (0 ≤ c) then
    match classes_ le !! Z.to_nat c with
    | Some v => Ok v
    | None => Raise (ValueError "")
    end
  else Raise (ValueError "").

Fixpoint inverse_transform (le : t) (codes : list Z) : result (list string) :=
  match codes with
  | [] => Ok []
  | c :: rest =>
      rbind (decode_label le c) (λ v,
      rbind (inverse_transform le rest) (λ vs, Ok (v :: vs)))
  end.

(** [le.fit_transform(y)]: the fitted encoder and the codes of [y]. *)
Definition fit_transform (y : list string) : t * list Z :=
  let le := fit y in
  match transform le y with
  | Ok codes => (le, codes)
  | Raise _ => (le, [])
  end.

End LabelEncoder.

(** ** The reference table *)

(** A pandas column with its dtype. *)
Inductive Series : Type :=
  | ObjectCol (values : list string)
  | Int64Col (values : list Z)
  | Float64Col (values : list Q).

(** The column that holds the array of codes returned by [fit_transform]:
    an int64 array, except that the array made from no code at all is an
    empty float64 array. *)
Definition codes_series (codes : list Z) : Series :=
  match codes with
  | [] => Float64Col []
  | _ :: _ => Int64Col codes
  end.

(** A DataFrame: its columns, in order, by name. *)
Abbreviation DataFrame := (list (string * Series)) (only parsing).

Definition columns (df : DataFrame) : list string := df.*1.

(** [df[col]] *)
Fixpoint df_get (col : string) (df : DataFrame) : option Series :=
  match df with
  | [] => None
  | (name, s) :: rest => if decide (name = col) then Some s else df_get col rest
  end.

(** [df[col] = s]: replaces the column, or appends a new one. *)
Fixpoint df_set (col : string) (s : Series) (df : DataFrame) : DataFrame :=
  match df with
  | [] => [(col, s)]
  | (name, s') :: rest =>
      if decide (name = col) then (name, s) :: rest
      else (name, s') :: df_set col s rest
  end.

(** [df.drop(col, axis=1)]: a [KeyError] when no column has that name. *)
Definition df_drop (col : string) (df : DataFrame) : result DataFrame :=
  if decide (col ∈ columns df)
  then Ok (filter (λ p, p.1 ≠ col) df)
  else Raise (KeyError (StrKey col)).

(** ** Module state and the script monad *)

Record Store : Type := mkStore {
  data : DataFrame;
  encoders : gmap string LabelEncoder.t
}.

(** A statement of the script: it may read and change the store, and either
    yields a value or raises; what it changed before raising stays changed. *)
Definition M (A : Type) : Type := Store → result A * Store.

Definition ret {A} (a : A) : M A := λ s, (Ok a, s).
Definition bind {A B} (k : A → M B) (m : M A) : M B :=
  λ s, match m s with
       | (Ok a, s') => k a s'
       | (Raise e, s') => (Raise e, s')
       end.
Definition lift {A} (r : result A) : M A := λ s, (r, s).

#[export] Instance M_ret : MRet M := @ret.
#[export] Instance M_bind : MBind M := @bind.

(** [data[col]] *)
Definition get_series (col : string) : M Series :=
  λ s, match df_get col (data s) with
       | Some c => (Ok c, s)
       | None => (Raise (KeyError (StrKey col)), s)
       end.

(** [data[col] = c] *)
Definition set_series (col : string) (c : Series) : M unit :=
  λ s, (Ok tt, mkStore (df_set col c (data s)) (encoders s)).

(** [encoders[col] = le] *)
Definition set_encoder (col : string) (le : LabelEncoder.t) : M unit :=
  λ s, (Ok tt, mkStore (data s) (<[col := le]> (encoders s))).

(** [encoders[col]] *)
Definition get_encoder (col : string) : M LabelEncoder.t :=
  λ s, match encoders s !! col with
       | Some le => (Ok le, s)
       | None => (Raise (KeyError (StrKey col)), s)
       end.

(** ** Building the encoders (lines 829-834) *)

(** One iteration of [for col in data.columns:]. *)
Definition build_step (col : string) : M unit :=
  c ← get_series col;
  match c with
  | ObjectCol values =>
      let '(le, codes) := LabelEncoder.fit_transform values in
      set_series col (codes_series codes);;
      set_encoder col le
  | _ => ret tt
  end.

Fixpoint build_loop (cols : list string) : M unit :=
  match cols with
  | [] => ret tt
  | col :: rest => build_step col;; build_loop rest
  end.

(** [encoders = {}] followed by the loop over [data.columns]. *)
Definition build : M unit :=
  λ s, build_loop (columns (data s)) (mkStore (data s) ∅).

(** Lines 749-750 and 829-834: the table read from the CSV file loses its
    index column, then the encoders are built. *)
Definition startup (csv : DataFrame) : result unit * Store :=
  match df_drop "Unnamed: 0" csv with
  | Ok d => build (mkStore d ∅)
  | Raise e => (Raise e, mkStore csv ∅)
  end.

(** The entry of [encoders] for [c] once the loop has visited [cols]: the
    invariant of [build_loop]. *)
Definition encoder_after (cols : list string) (s : Store) (c : string) :
    option LabelEncoder.t :=
  match df_get c (data s) with
  | Some (ObjectCol values) =>
      if decide (c ∈ cols) then Some (LabelEncoder.fit values) else encoders s !! c
  | _ => encoders s !! c
  end.

(** ** Python dictionaries and lists *)

(** A dict literal, in insertion order. *)
Abbreviation dict K V := (list (K * V)) (only parsing).

Class AsKey (K : Type) : Type := as_key : K → dict_key.
#[export] Instance string_as_key : AsKey string := StrKey.
#[export] Instance Z_as_key : AsKey Z := IntKey.

Fixpoint dict_lookup {K V} `{EqDecision K} (k : K) (d : dict K V) : option V :=
  match d with
  | [] => None
  | (k', v) :: rest => if decide (k' = k) then Some v else dict_lookup k rest
  end.

(** [list(d.keys())] *)
Definition keys {K V} (d : dict K V) : list K := d.*1.

(** [d[k]] *)
Definition getitem {K V} `{EqDecision K, AsKey K} (d : dict K V) (k : K) : result V :=
  match dict_lookup k d with
  | Some v => Ok v
  | None => Raise (KeyError (as_key k))
  end.

(** [d.get(k, default)] *)
Definition dict_get {K V} `{EqDecision K} (d : dict K V) (k : K) (default : V) : V :=
  match dict_lookup k d with
  | Some v => v
  | None => default
  end.

(** [l[i]] for [i >= 0] *)
Definition list_getitem {A} (l : list A) (i : nat) : result A :=
  match l !! i with
  | Some a => Ok a
  | None => Raise IndexError
  end.

(** ** The localized catalogs *)

(** The three entries of each locale of [TRANSLATIONS] (lines 120-320) that
    [damage_map] reads; the other entries are label text only. *)
Definition TRANSLATIONS : dict string (dict string string) :=
  [
    ("en",
     [
       ("safe", "Safe");
       ("high_risk", "High Risk");
       ("collapsed", "Collapsed")
     ]);
    ("tr",
     [
       ("safe", "Güvenli");
       ("high_risk", "Yüksek Risk");
       ("collapsed", "Yıkılmış")
     ]);
    ("fr",
     [
       ("safe", "Sûr");
       ("high_risk", "Risque élevé");
       ("collapsed", "Effondré")
     ]);
    ("de",
     [
       ("safe", "Sicher");
       ("high_risk", "Hohes Risiko");
       ("collapsed", "Eingestürzt")
     ]);
    ("zh",
     [
       ("safe", "安全");
       ("high_risk", "高风险");
       ("collapsed", "倒塌")
     ]);
    ("ru",
     [
       ("safe", "Безопасно");
       ("high_risk", "Высокий риск");
       ("collapsed", "Обрушено")
     ]);
    ("fa",
     [
       ("safe", "ایمن");
       ("high_risk", "پرخطر");
       ("collapsed", "فروریخته")
     ]);
    ("ar",
     [
       ("safe", "آمن");
       ("high_risk", "عالي الخطورة");
       ("collapsed", "منهار")
     ])
  ].

(** Lines 752-825. *)
Definition OCC_TYPES_BY_LANG : dict string (dict string (list string)) :=
  [
    ("en",
     [
       ("Residential", ["RES1"; "RES3"; "RES4"]);
       ("Commercial", ["COM1"; "COM2"; "COM3"; "COM4"; "COM7"; "COM8"]);
       ("Industrial", ["IND1"; "IND2"; "IND3"]);
       ("Agricultural", ["AGR1"]);
       ("Educational", ["EDU1"]);
       ("Religious", ["REL1"]);
       ("Governmental", ["GOV1"])
     ]);
    ("tr",
     [
       ("Konut (Residential)", ["RES1"; "RES3"; "RES4"]);
       ("Ticari (Commercial)", ["COM1"; "COM2"; "COM3"; "COM4"; "COM7"; "COM8"]);
       ("Endüstriyel (Industrial)", ["IND1"; "IND2"; "IND3"]);
       ("Tarımsal (Agricultural)", ["AGR1"]);
       ("Eğitim (Educational)", ["EDU1"]);
       ("Dini (Religious)", ["REL1"]);
       ("Kamu (Governmental)", ["GOV1"])
     ]);
    ("fr",
     [
       ("Résidentiel", ["RES1"; "RES3"; "RES4"]);
       ("Commercial", ["COM1"; "COM2"; "COM3"; "COM4"; "COM7"; "COM8"]);
       ("Industriel", ["IND1"; "IND2"; "IND3"]);
       ("Agricole", ["AGR1"]);
       ("Éducatif", ["EDU1"]);
       ("Religieux", ["REL1"]);
       ("Gouvernemental", ["GOV1"])
     ]);
    ("de",
     [
       ("Wohngebäude", ["RES1"; "RES3"; "RES4"]);
       ("Gewerblich", ["COM1"; "COM2"; "COM3"; "COM4"; "COM7"; "COM8"]);
       ("Industriell", ["IND1"; "IND2"; "IND3"]);
       ("Landwirtschaftlich", ["AGR1"]);
       ("Bildungseinrichtung", ["EDU1"]);
       ("Religiös", ["REL1"]);
       ("Staatlich", ["GOV1"])
     ]);
    ("zh",
     [
       ("住宅 (Residential)", ["RES1"; "RES3"; "RES4"]);
       ("商业 (Commercial)", ["COM1"; "COM2"; "COM3"; "COM4"; "COM7"; "COM8"]);
       ("工业 (Industrial)", ["IND1"; "IND2"; "IND3"]);
       ("农业 (Agricultural)", ["AGR1"]);
       ("教育 (Educational)", ["EDU1"]);
       ("宗教 (Religious)", ["REL1"]);
       ("政府 (Governmental)", ["GOV1"])
     ]);
    ("ru",
     [
       ("Жилое (Residential)", ["RES1"; "RES3"; "RES4"]);
       ("Коммерческое (Commercial)", ["COM1"; "COM2"; "COM3"; "COM4"; "COM7"; "COM8"]);
       ("Промышленное (Industrial)", ["IND1"; "IND2"; "IND3"]);
       ("Сельскохозяйственное (Agricultural)", ["AGR1"]);
       ("Образовательное (Educational)", ["EDU1"]);
       ("Религиозное (Religious)", ["REL1"]);
       ("Государственное (Governmental)", ["GOV1"])
     ]);
    ("fa",
     [
       ("مسکونی", ["RES1"; "RES3"; "RES4"]);
       ("تجاری", ["COM1"; "COM2"; "COM3"; "COM4"; "COM7"; "COM8"]);
       ("صنعتی", ["IND1"; "IND2"; "IND3"]);
       ("کشاورزی", ["AGR1"]);
       ("آموزشی", ["EDU1"]);
       ("مذهبی", ["REL1"]);
       ("دولتی", ["GOV1"])
     ]);
    ("ar",
     [
       ("سكني", ["RES1"; "RES3"; "RES4"]);
       ("تجاري", ["COM1"; "COM2"; "COM3"; "COM4"; "COM7"; "COM8"]);
       ("صناعي", ["IND1"; "IND2"; "IND3"]);
       ("زراعي", ["AGR1"]);
       ("تعليمي", ["EDU1"]);
       ("ديني", ["REL1"]);
       ("حكومي", ["GOV1"])
     ])
  ].


(** Lines 836-901. *)
Definition STRUCT_TYPES_BY_LANG : dict string (dict string string) :=
  [
    ("en",
     [
       ("Unreinforced Masonry (URM)", "URM");
       ("Steel Moment Frame (S1)", "S1");
       ("Reinforced Concrete Moment Frame (C4)", "C4");
       ("Wooden Frame (W1)", "W1");
       ("Precast Concrete (PC1)", "PC1");
       ("Reinforced Concrete Shear Wall (C1)", "C1")
     ]);
    ("tr",
     [
       ("Yığma (URM)", "URM");
       ("Çelik Moment Çerçeve (S1)", "S1");
       ("Betonarme Moment Çerçeve (C4)", "C4");
       ("Ahşap Çerçeve (W1)", "W1");
       ("Ön Dökümlü Beton (PC1)", "PC1");
       ("Betonarme Perde Duvar (C1)", "C1")
     ]);
    ("fr",
     [
       ("Maçonnerie non armée (URM)", "URM");
       ("Charpente métallique à portique (S1)", "S1");
       ("Portique en béton armé (C4)", "C4");
       ("Structure en bois (W1)", "W1");
       ("Béton préfabriqué (PC1)", "PC1");
       ("Voiles en béton armé (C1)", "C1")
     ]);
    ("de",
     [
       ("Unbewehrtes Mauerwerk (URM)", "URM");
       ("Stahlmomentrahmen (S1)", "S1");
       ("Stahlbetonmomentrahmen (C4)", "C4");
       ("Holzrahmen (W1)", "W1");
       ("Fertigbetonbau (PC1)", "PC1");
       ("Stahlbeton-Scheibenwand (C1)", "C1")
     ]);
    ("zh",
     [
       ("未加固砌体结构 (URM)", "URM");
       ("钢框架结构 (S1)", "S1");
       ("钢筋混凝土框架 (C4)", "C4");
       ("木结构框架 (W1)", "W1");
       ("预制混凝土结构 (PC1)", "PC1");
       ("钢筋混凝土剪力墙 (C1)", "C1")
     ]);
    ("ru",
     [
       ("Ненармированная кладка (URM)", "URM");
       ("Стальной рамный каркас (S1)", "S1");
       ("Железобетонный рамный каркас (C4)", "C4");
       ("Деревянный каркас (W1)", "W1");
       ("Сборный железобетон (PC1)", "PC1");
       ("Железобетонные стены-диафрагмы (C1)", "C1")
     ]);
    ("fa",
     [
       ("مصالح بنایی بدون مسلح (URM)", "URM");
       ("قاب خمشی فولادی (S1)", "S1");
       ("قاب خمشی بتن‌آرمه (C4)", "C4");
       ("قاب چوبی (W1)", "W1");
       ("بتن پیش‌ساخته (PC1)", "PC1");
       ("دیوار برشی بتن‌آرمه (C1)", "C1")
     ]);
    ("ar",
     [
       ("مباني طوب غير مسلحة (URM)", "URM");
       ("إطار لحظي فولاذي (S1)", "S1");
       ("إطار لحظي خرسانة مسلحة (C4)", "C4");
       ("إطار خشبي (W1)", "W1");
       ("خرسانة مسبقة الصب (PC1)", "PC1");
       ("جدار قص خرسانة مسلحة (C1)", "C1")
     ])
  ].


(** The value of [OCC_TYPES_BY_LANG["en"]] and [STRUCT_TYPES_BY_LANG["en"]],
    the defaults of the two [.get] calls; both keys exist. *)
Definition OCC_TYPES_en : dict string (list string) :=
  dict_get OCC_TYPES_BY_LANG "en" [].
Definition STRUCT_TYPES_en : dict string string :=
  dict_get STRUCT_TYPES_BY_LANG "en" [].

(** Line 827. *)
Definition occ_type_display (lang : string) : dict string (list string) :=
  dict_get OCC_TYPES_BY_LANG lang OCC_TYPES_en.

(** Line 903. *)
Definition struct_type_display (lang : string) : dict string string :=
  dict_get STRUCT_TYPES_BY_LANG lang STRUCT_TYPES_en.

(** The options of the language radio button (line 653). *)
Definition locales : list string := keys TRANSLATIONS.

(** ** From the form to the feature row (lines 907-931) *)

(** Line 911: [struct_typ = struct_type_display[struct_display_choice]] *)
Definition struct_typ (lang struct_display_choice : string) : result string :=
  getitem (struct_type_display lang) struct_display_choice.

(** Line 917: [occ_type_code = occ_type_display[occ_choice][0]] *)
Definition occ_type_code (lang occ_choice : string) : result string :=
  rbind (getitem (occ_type_display lang) occ_choice) (λ family,
  list_getitem family 0).

(** [encoders[field].transform([raw])[0]] *)
Definition encode (field raw : string) : M Z :=
  le ← get_encoder field;
  codes ← lift (LabelEncoder.transform le [raw]);
  lift (list_getitem codes 0).

(** [encoders[field].inverse_transform([code])[0]], the decoding that the
    stored encoder offers; the script itself only encodes. *)
Definition decode (field : string) (code : Z) : M string :=
  le ← get_encoder field;
  labels ← lift (LabelEncoder.inverse_transform le [code]);
  lift (list_getitem labels 0).

(** A row of the float64 array [X].  NumPy stores the integer entries as
    floats; a rational stands for the float of the same value, which exists
    for every integer of magnitude at most 2^53 and so for every value of the
    form's number inputs. *)
Abbreviation FeatureVector := (list Q) (only parsing).

(** Lines 924-931: [X = np.array([[...]])], one row of six entries. *)
Definition assemble (struct_typ occ_type_code : string)
    (year_built no_stories : Z) (magnitude distance : Q) : M (list FeatureVector) :=
  s ← encode "struct_typ" struct_typ;
  o ← encode "occ_type" occ_type_code;
  mret [[inject_Z s; inject_Z o; inject_Z year_built; inject_Z no_stories;
         magnitude; distance]].

(** The integers that float64 holds without rounding: those of magnitude at
    most 2^53. *)
Definition float64_exact (z : Z) : Prop :=
  - 9007199254740992 ≤ z ≤ 9007199254740992.

(** What the form holds when the script reaches line 924. *)
Record FormInput : Type := mkForm {
  struct_display_choice : string;
  occ_choice : string;
  year_built : Z;
  no_stories : Z;
  magnitude : Q;
  distance : Q
}.

(** Lines 907-931 for the locale [lang] and the form's content. *)
Definition form_X (lang : string) (f : FormInput) : M (list FeatureVector) :=
  st ← lift (struct_typ lang (struct_display_choice f));
  oc ← lift (occ_type_code lang (occ_choice f));
  assemble st oc (year_built f) (no_stories f) (magnitude f) (distance f).

(** ** The displayed damage class (lines 937-949) *)

(** Lines 937-941, with [t = TRANSLATIONS[lang]] of line 662. *)
Definition damage_map (t : dict string string) : result (dict Z string) :=
  rbind (getitem t "safe") (λ safe,
  rbind (getitem t "high_risk") (λ high_risk,
  rbind (getitem t "collapsed") (λ collapsed,
  Ok [ (0, "🟢 " +:+ safe); (1, "🟠 " +:+ high_risk); (2, "🔴 " +:+ collapsed) ]))).

(** Line 949: [damage_map[int(damage_class_pred)]] *)
Definition damage_class (lang : string) (damage_class_pred : Z) : result string :=
  rbind (getitem TRANSLATIONS lang) (λ t,
  rbind (damage_map t) (λ dm,
  getitem dm damage_class_pred)).

(** The canonical codes of the two catalogs, in the order of their entries. *)
Definition struct_catalog_codes : list string :=
  ["URM"; "S1"; "C4"; "W1"; "PC1"; "C1"].
Definition occ_families : list (list string) :=
  [ ["RES1"; "RES3"; "RES4"];
    ["COM1"; "COM2"; "COM3"; "COM4"; "COM7"; "COM8"];
    ["IND1"; "IND2"; "IND3"];
    ["AGR1"]; ["EDU1"]; ["REL1"]; ["GOV1"] ].

(** [TRANSLATIONS[lang][key]] *)
Definition label_of (lang key : string) : result string :=
  rbind (getitem TRANSLATIONS lang) (λ t, getitem t key).

(** ** The texts of the page *)

(** [TRANSLATIONS] with all its entries (lines 120-320). *)
Definition TRANSLATIONS_all : dict string (dict string string) :=
  [
    ("en",
     [
       ("language_name", "English");
       ("hero_title", "Predicting Building Collapse After an Earthquake");
       ("made_by", "Made By:");
       ("main_title", "Earthquake Building Damage Prediction");
       ("subtitle", "Predict structural damage based on building and site characteristics.");
       ("input_section", "Input Features");
       ("struct_type", "Structural Type");
       ("occ_type", "Occupancy Type");
       ("year_built", "Year Built");
       ("no_stories", "Number of Stories");
       ("magnitude", "Earthquake Magnitude");
       ("distance", "Distance from Epicenter (km)");
       ("predict_button", "Predict Damage");
       ("results_title", "Prediction Results");
       ("mean_damage", "Mean Damage Index");
       ("damage_class", "Damage Class");
       ("safe", "Safe");
       ("high_risk", "High Risk");
       ("collapsed", "Collapsed");
       ("prediction_done", "Prediction completed successfully.");
       ("model_summary", "Model Performance Summary");
       ("expander_title", "Show model comparison results");
       ("expander_caption", "Classification & Regression Model Performance")
     ]);
    ("tr",
     [
       ("language_name", "Türkçe");
       ("hero_title", "Deprem Sonrası Bina Çökme Tahmini");
       ("made_by", "Hazırlayanlar:");
       ("main_title", "Deprem Bina Hasar Tahmini");
       ("subtitle", "Bina ve zemin özelliklerine göre yapısal hasarı tahmin edin.");
       ("input_section", "Girdi Özellikleri");
       ("struct_type", "Taşıyıcı Sistem Türü");
       ("occ_type", "Kullanım Türü");
       ("year_built", "Yapım Yılı");
       ("no_stories", "Kat Sayısı");
       ("magnitude", "Deprem Büyüklüğü");
       ("distance", "Merkez Üssüne Uzaklık (km)");
       ("predict_button", "Hasarı Tahmin Et");
       ("results_title", "Tahmin Sonuçları");
       ("mean_damage", "Ortalama Hasar İndeksi");
       ("damage_class", "Hasar Sınıfı");
       ("safe", "Güvenli");
       ("high_risk", "Yüksek Risk");
       ("collapsed", "Yıkılmış");
       ("prediction_done", "Tahmin başarıyla tamamlandı.");
       ("model_summary", "Model Performans Özeti");
       ("expander_title", "Model karşılaştırma sonuçlarını göster");
       ("expander_caption", "Sınıflandırma ve Regresyon Model Performansı")
     ]);
    ("fr",
     [
       ("language_name", "Français");
       ("hero_title", "Prédiction de l'effondrement des bâtiments après un séisme");
       ("made_by", "Réalisé par :");
       ("main_title", "Prédiction des dommages aux bâtiments");
       ("subtitle", "Prédisez les dégâts structurels selon les caractéristiques du bâtiment et du site.");
       ("input_section", "Caractéristiques en entrée");
       ("struct_type", "Type de structure");
       ("occ_type", "Type d'occupation");
       ("year_built", "Année de construction");
       ("no_stories", "Nombre d'étages");
       ("magnitude", "Magnitude du séisme");
       ("distance", "Distance à l'épicentre (km)");
       ("predict_button", "Prédire les dégâts");
       ("results_title", "Résultats de la prédiction");
       ("mean_damage", "Indice moyen de dégâts");
       ("damage_class", "Classe de dégâts");
       ("safe", "Sûr");
       ("high_risk", "Risque élevé");
       ("collapsed", "Effondré");
       ("prediction_done", "Prédiction terminée avec succès.");
       ("model_summary", "Résumé des performances du modèle");
       ("expander_title", "Afficher la comparaison des modèles");
       ("expander_caption", "Performances des modèles de classification et de régression")
     ]);
    ("de",
     [
       ("language_name", "Deutsch");
       ("hero_title", "Prognose von Gebäudeeinstürzen nach Erdbeben");
       ("made_by", "Erstellt von:");
       ("main_title", "Vorhersage von Erdbebenschäden an Gebäuden");
       ("subtitle", "Sagen Sie strukturelle Schäden anhand von Gebäude- und Standortmerkmalen voraus.");
       ("input_section", "Eingabemerkmale");
       ("struct_type", "Strukturtyp");
       ("occ_type", "Nutzungstyp");
       ("year_built", "Baujahr");
       ("no_stories", "Anzahl der Stockwerke");
       ("magnitude", "Erdbebenstärke");
       ("distance", "Entfernung zum Epizentrum (km)");
       ("predict_button", "Schäden vorhersagen");
       ("results_title", "Vorhersageergebnisse");
       ("mean_damage", "Mittlerer Schadensindex");
       ("damage_class", "Schadensklasse");
       ("safe", "Sicher");
       ("high_risk", "Hohes Risiko");
       ("collapsed", "Eingestürzt");
       ("prediction_done", "Vorhersage erfolgreich abgeschlossen.");
       ("model_summary", "Zusammenfassung der Modellleistung");
       ("expander_title", "Modellvergleich anzeigen");
       ("expander_caption", "Leistung der Klassifikations- und Regressionsmodelle")
     ]);
    ("zh",
     [
       ("language_name", "中文");
       ("hero_title", "地震后建筑物倒塌预测");
       ("made_by", "制作：");
       ("main_title", "地震建筑损坏预测");
       ("subtitle", "根据建筑物和场地特征预测结构损坏程度。");
       ("input_section", "输入特征");
       ("struct_type", "结构类型");
       ("occ_type", "使用类型");
       ("year_built", "建造年份");
       ("no_stories", "楼层数");
       ("magnitude", "地震震级");
       ("distance", "距震中距离（千米）");
       ("predict_button", "预测损坏");
       ("results_title", "预测结果");
       ("mean_damage", "平均损坏指数");
       ("damage_class", "损坏等级");
       ("safe", "安全");
       ("high_risk", "高风险");
       ("collapsed", "倒塌");
       ("prediction_done", "预测已成功完成。");
       ("model_summary", "模型性能概览");
       ("expander_title", "显示模型对比结果");
       ("expander_caption", "分类与回归模型性能")
     ]);
    ("ru",
     [
       ("language_name", "Русский");
       ("hero_title", "Прогноз обрушения зданий после землетрясения");
       ("made_by", "Авторы:");
       ("main_title", "Прогноз повреждений зданий при землетрясении");
       ("subtitle", "Прогнозируйте структурные повреждения по характеристикам здания и участка.");
       ("input_section", "Входные характеристики");
       ("struct_type", "Тип конструкции");
       ("occ_type", "Тип использования");
       ("year_built", "Год постройки");
       ("no_stories", "Количество этажей");
       ("magnitude", "Магнитуда землетрясения");
       ("distance", "Расстояние до эпицентра (км)");
       ("predict_button", "Прогнозировать повреждения");
       ("results_title", "Результаты прогноза");
       ("mean_damage", "Средний индекс повреждений");
       ("damage_class", "Класс повреждений");
       ("safe", "Безопасно");
       ("high_risk", "Высокий риск");
       ("collapsed", "Обрушено");
       ("prediction_done", "Прогноз успешно завершён.");
       ("model_summary", "Сводка по точности модели");
       ("expander_title", "Показать сравнение моделей");
       ("expander_caption", "Эффективность моделей классификации и регрессии")
     ]);
    ("fa",
     [
       ("language_name", "فارسی");
       ("hero_title", "پیش‌بینی فروریختن ساختمان پس از زلزله");
       ("made_by", "تهیه‌کنندگان:");
       ("main_title", "پیش‌بینی خسارت ساختمان در زلزله");
       ("subtitle", "بر اساس ویژگی‌های ساختمان و محل، میزان خسارت سازه را پیش‌بینی کنید.");
       ("input_section", "ویژگی‌های ورودی");
       ("struct_type", "نوع سیستم سازه‌ای");
       ("occ_type", "نوع کاربری");
       ("year_built", "سال ساخت");
       ("no_stories", "تعداد طبقات");
       ("magnitude", "بزرگی زلزله");
       ("distance", "فاصله تا کانون زلزله (کیلومتر)");
       ("predict_button", "پیش‌بینی خسارت");
       ("results_title", "نتایج پیش‌بینی");
       ("mean_damage", "شاخص میانگین خسارت");
       ("damage_class", "کلاس خسارت");
       ("safe", "ایمن");
       ("high_risk", "پرخطر");
       ("collapsed", "فروریخته");
       ("prediction_done", "پیش‌بینی با موفقیت انجام شد.");
       ("model_summary", "خلاصه عملکرد مدل");
       ("expander_title", "نمایش نتایج مقایسه مدل‌ها");
       ("expander_caption", "عملکرد مدل‌های طبقه‌بندی و رگرسیون")
     ]);
    ("ar",
     [
       ("language_name", "العربية");
       ("hero_title", "تنبؤ بانهيار المباني بعد الزلازل");
       ("made_by", "إعداد:");
       ("main_title", "تنبؤ أضرار المباني في الزلازل");
       ("subtitle", "تنبأ بالأضرار الإنشائية بناءً على خصائص المبنى والموقع.");
       ("input_section", "المدخلات");
       ("struct_type", "نوع الهيكل الإنشائي");
       ("occ_type", "نوع الإشغال");
       ("year_built", "سنة البناء");
       ("no_stories", "عدد الطوابق");
       ("magnitude", "قوة الزلزال");
       ("distance", "المسافة عن مركز الزلزال (كم)");
       ("predict_button", "تنبؤ الأضرار");
       ("results_title", "نتائج التنبؤ");
       ("mean_damage", "مؤشر متوسط الأضرار");
       ("damage_class", "فئة الأضرار");
       ("safe", "آمن");
       ("high_risk", "عالي الخطورة");
       ("collapsed", "منهار");
       ("prediction_done", "اكتمل التنبؤ بنجاح.");
       ("model_summary", "ملخص أداء النموذج");
       ("expander_title", "عرض نتائج مقارنة النماذج");
       ("expander_caption", "أداء نماذج التصنيف والانحدار")
     ])
  ].

(** The keys that the script reads from [t = TRANSLATIONS[lang]], in the
    order of the lines that read them, after [language_name], which the
    language radio button reads for each of its options (line 656). *)
Definition text_keys : list string :=
  [ "language_name"; "hero_title"; "made_by"; "main_title"; "subtitle";
    "input_section"; "struct_type"; "occ_type"; "year_built"; "no_stories";
    "magnitude"; "distance"; "predict_button"; "safe"; "high_risk";
    "collapsed"; "results_title"; "mean_damage"; "damage_class";
    "prediction_done"; "model_summary"; "expander_title"; "expander_caption" ].

(** [TRANSLATIONS[lang][key]] on the whole table. *)
Definition text (lang key : string) : result string :=
  rbind (getitem TRANSLATIONS_all lang) (λ t, getitem t key).

Definition is_ok {A} (r : result A) : bool :=
  match r with Ok _ => true | Raise _ => false end.

#[export] Instance dict_key_eq_dec : EqDecision dict_key.
Proof. solve_decision. Defined.
#[export] Instance exception_eq_dec : EqDecision exception.
Proof. solve_decision. Defined.
#[export] Instance result_eq_dec {A} `{EqDecision A} : EqDecision (result A).
Proof. solve_decision. Defined.

(** ** The landing page (lines 116-117 and 613-629) *)

(** The part of [st.session_state] that the script itself writes. *)
Abbreviation session_state := (gmap string bool) (only parsing).

(** Lines 116-117. *)
Definition init_session (ss : session_state) : session_state :=
  match ss !! "app_started" with
  | None => <["app_started" := false]> ss
  | Some _ => ss
  end.

(** How a run of the script leaves line 629: it stopped on the landing page,
    it asked for a rerun after the click on Yes!, it went on to the form, or
    it raised the [AttributeError] of a missing [app_started]. *)
Inductive gate_end : Type :=
  | Stopped
  | Rerun
  | Reached_form
  | Attribute_error.

(** Lines 613-629; [yes] is what [st.button("Yes!")] returns in this run. *)
Definition landing_gate (yes : bool) (ss : session_state) : gate_end * session_state :=
  match ss !! "app_started" with
  | None => (Attribute_error, ss)
  | Some false =>
      if yes then (Rerun, <["app_started" := true]> ss) else (Stopped, ss)
  | Some true => (Reached_form, ss)
  end.

(** One user interaction: the script runs from the top, and runs once more,
    with the button released, when it asks for a rerun. *)
Definition script_run (yes : bool) (ss : session_state) : gate_end * session_state :=
  match landing_gate yes (init_session ss) with
  | (Rerun, ss') => landing_gate false (init_session ss')
  | r => r
  end.

(** The session after a sequence of interactions. *)
Definition play (clicks : list bool) (ss : session_state) : session_state :=
  foldl (λ ss yes, (script_run yes ss).2) ss clicks.

(** ** The form as first shown (lines 907-922) *)

(** A selectbox that the user has not touched returns its first option, and
    [None] when it has no option. *)
Definition selectbox_default (options : list string) : option string :=
  head options.

(** The form's content before any input: the first option of each
    selectbox and the [value] of each number input. *)
Definition default_form (lang : string) : option FormInput :=
  sc ← selectbox_default (keys (struct_type_display lang));
  oc ← selectbox_default (keys (occ_type_display lang));
  Some (mkForm sc oc 2000 0 (5#1) (3#1)).

(** ** The highlighted rows of the performance table (lines 15-100) *)

(** A record of the table built in [_model_performance_png_bytes]; a
    rational stands for the float of the same value. *)
Record PerfRow : Type := mkRow {
  Model : string;
  Metric_Type : string;
  Value : Q
}.

(** Lines 20-34; the index of a row is its position. *)
Definition perf_rows : list PerfRow :=
  [ mkRow "Logistic Regression" "Accuracy" (5989 # 100);
    mkRow "Decision Tree Classifier" "Accuracy" (9594 # 100);
    mkRow "Random Forest Classifier" "Accuracy" (9599 # 100);
    mkRow "SVM Classifier" "Accuracy" (4727 # 100);
    mkRow "KNN Classifier" "Accuracy" (9301 # 100);
    mkRow "Naive Bayes Classifier" "Accuracy" (8121 # 100);
    mkRow "Linear Regression" "MAE" (3022 # 100000);
    mkRow "Decision Tree Regressor" "MAE" (295 # 100000);
    mkRow "Random Forest Regressor" "MAE" (243 # 100000);
    mkRow "SVM Regressor" "MAE" (4107 # 100000);
    mkRow "KNN Regressor" "MAE" (609 # 100000) ].

(** The rows with their index labels. *)
Definition with_index (rows : list PerfRow) : list (nat * PerfRow) :=
  imap (λ i r, (i, r)) rows.

(** [df.loc[df["Metric Type"].eq(m)]] *)
Definition loc_metric (m : string) (df : list (nat * PerfRow)) : list (nat * PerfRow) :=
  filter (λ ir, Metric_Type ir.2 = m) df.

(** The order of [nlargest]: larger values first, and among equal values
    the row that comes first in the table. *)
Definition larger_first (a b : nat * PerfRow) : Prop :=
  Qlt (Value b.2) (Value a.2) ∨ (Qeq (Value a.2) (Value b.2) ∧ (a.1 ≤ b.1)%nat).

(** The order of [nsmallest]. *)
Definition smaller_first (a b : nat * PerfRow) : Prop :=
  Qlt (Value a.2) (Value b.2) ∨ (Qeq (Value a.2) (Value b.2) ∧ (a.1 ≤ b.1)%nat).

#[export] Instance larger_first_dec : RelDecision larger_first.
Proof.
  intros a b. unfold larger_first.
  destruct (Qlt_le_dec (Value b.2) (Value a.2)) as [Hlt|Hle]; [left; by left|].
  destruct (Qeq_dec (Value a.2) (Value b.2)) as [Heq|Hne].
  - destruct (decide (a.1 ≤ b.1)%nat) as [Hi|Hi]; [left; by right|].
    right. intros [Hlt|[_ ?]]; [|done]. by apply Qle_not_lt in Hle.
  - right. intros [Hlt|[? _]]; [|done]. by apply Qle_not_lt in Hle.
Defined.

#[export] Instance smaller_first_dec : RelDecision smaller_first.
Proof.
  intros a b. unfold smaller_first.
  destruct (Qlt_le_dec (Value a.2) (Value b.2)) as [Hlt|Hle]; [left; by left|].
  destruct (Qeq_dec (Value a.2) (Value b.2)) as [Heq|Hne].
  - destruct (decide (a.1 ≤ b.1)%nat) as [Hi|Hi]; [left; by right|].
    right. intros [Hlt|[_ ?]]; [|done]. by apply Qle_not_lt in Hle.
  - right. intros [Hlt|[? _]]; [|done]. by apply Qle_not_lt in Hle.
Defined.

(** [df.nlargest(n, "Value")] and [df.nsmallest(n, "Value")] *)
Definition nlargest (n : nat) (df : list (nat * PerfRow)) : list (nat * PerfRow) :=
  take n (merge_sort larger_first df).
Definition nsmallest (n : nat) (df : list (nat * PerfRow)) : list (nat * PerfRow) :=
  take n (merge_sort smaller_first df).

(** Lines 36-41 and 42-47. *)
Definition acc_top (rows : list PerfRow) : list nat :=
  (nlargest 2 (loc_metric "Accuracy" (with_index rows))).*1.
Definition mae_top (rows : list PerfRow) : list nat :=
  (nsmallest 2 (loc_metric "MAE" (with_index rows))).*1.

(** Line 48. *)
Definition highlight_rows (rows : list PerfRow) : gset nat :=
  list_to_set (acc_top rows ++ mae_top rows).

(** Lines 84-92: the face colour of the cells of the table row [i], which
    shows the record of index [row_idx]. *)
Definition facecolor (hl : gset nat) (i row_idx : nat) : string :=
  let base := if decide (i `mod` 2 = 0)%nat then "#f2f5f7" else "white" in
  if decide (row_idx ∈ hl) then "#d9fbe5" else base.

(** ** Sample tables *)

(** A small reference table as line 829 sees it. *)
Definition ex_data : DataFrame :=
  [ ("struct_typ", ObjectCol ["URM"; "C1"; "W1"; "S1"; "C4"; "PC1"; "URM"]);
    ("occ_type", ObjectCol ["RES1"; "COM1"; "IND1"; "AGR1"; "EDU1"; "REL1"; "GOV1"]);
    ("year_built", Int64Col [1990; 2001; 1987; 2010; 1999; 2005; 2016]) ].

(** The same table as read from the CSV file, with its index column. *)
Definition ex_csv : DataFrame :=
  ("Unnamed: 0", Int64Col [0; 1; 2; 3; 4; 5; 6]) :: ex_data.

Definition ex_store : Store := mkStore ex_data ∅.

(** A CSV file with a header line and no record. *)
Definition empty_csv : DataFrame :=
  [ ("Unnamed: 0", ObjectCol []);
    ("struct_typ", ObjectCol []);
    ("occ_type", ObjectCol []);
    ("year_built", ObjectCol []) ].

(** A table whose records have no [occ_type] field, and the CSV file it is
    read from. *)
Definition no_occ_data : DataFrame :=
  [ ("struct_typ", ObjectCol ["URM"; "C1"]);
    ("year_built", Int64Col [1990; 2001]) ].

Definition no_occ_csv : DataFrame :=
  ("Unnamed: 0", Int64Col [0; 1]) :: no_occ_data.

(** The six structural codes and the first code of each occupancy family. *)
Definition struct_codes : list string := ["C1"; "C4"; "PC1"; "S1"; "URM"; "W1"].
Definition occ_first_codes : list string :=
  ["RES1"; "COM1"; "IND1"; "AGR1"; "EDU1"; "REL1"; "GOV1"].

(** * Properties *)

(** ** Results and the monad *)

Lemma bind_run {A B} (m : M A) (k : A → M B) (s : Store) :
  (m ≫= k) s = match m s with
               | (Ok a, s') => k a s'
               | (Raise e, s') => (Raise e, s')
               end.
Proof. reflexivity. Qed.

(** ** The class table of a fitted encoder *)

Section label_encoder.
Import LabelEncoder.

Lemma elem_of_unique (y : list string) (v : string) : v ∈ unique y ↔ v ∈ y.
Proof.
  unfold unique. rewrite merge_sort_Permutation, elem_of_elements.
  apply elem_of_list_to_set.
Qed.

Lemma NoDup_unique (y : list string) : NoDup (unique y).
Proof.
  unfold unique. rewrite merge_sort_Permutation. apply NoDup_elements.
Qed.

Lemma StronglySorted_unique_le (y : list string) :
  StronglySorted String.le (unique y).
Proof. apply (StronglySorted_merge_sort String.le). Qed.

(** The table depends on the set of the labels only, not on their order or
    their number of occurrences. *)
Lemma unique_ext (y1 y2 : list string) :
  (∀ v, v ∈ y1 ↔ v ∈ y2) → unique y1 = unique y2.
Proof.
  intros Hy. unfold unique.
  replace (list_to_set y2 : gset string) with (list_to_set y1 : gset string);
    [done|].
  apply set_eq. intros v. rewrite !elem_of_list_to_set. apply Hy.
Qed.

(** A sorted list without duplicates is the table of its own labels. *)
Lemma unique_sorted_id (l : list string) :
  StronglySorted String.le l → NoDup l → unique l = l.
Proof.
  intros Hs Hn.
  apply (StronglySorted_unique String.le); [apply StronglySorted_unique_le|done|].
  apply NoDup_Permutation; [apply NoDup_unique|done|].
  apply elem_of_unique.
Qed.

Lemma index_of_Some (v : string) (l : list string) (i : nat) :
  index_of v l = Some i → l !! i = Some v.
Proof.
  revert i. induction l as [|c l IH]; intros i; simpl; [done|].
  case_decide as Hc.
  - intros [= <-]. by subst.
  - destruct (index_of v l) as [j|]; simpl; [|done].
    intros [= <-]. by apply IH.
Qed.

Lemma index_of_None (v : string) (l : list string) :
  index_of v l = None ↔ v ∉ l.
Proof.
  induction l as [|c l IH]; simpl.
  - split; [intros _; apply not_elem_of_nil|done].
  - rewrite not_elem_of_cons. case_decide as Hc.
    + split; [done|]. intros [? _]. by subst.
    + destruct (index_of v l) as [j|]; simpl.
      * split; [done|]. intros [_ Hv]. by apply IH in Hv.
      * split; [|done]. intros _. split; [done|]. by apply IH.
Qed.

Lemma index_of_lookup (v : string) (l : list string) (i : nat) :
  NoDup l → l !! i = Some v → index_of v l = Some i.
Proof.
  intros Hn Hi.
  destruct (index_of v l) as [j|] eqn:Hj.
  - apply index_of_Some in Hj. f_equal. by eapply NoDup_lookup.
  - apply index_of_None in Hj. destruct Hj. by eapply list_elem_of_lookup_2.
Qed.

(** In a sorted table without duplicates, positions and labels are ordered
    alike. *)
Lemma sorted_lookup_lt (l : list string) (i j : nat) (v w : string) :
  StronglySorted String.le l → NoDup l →
  l !! i = Some v → l !! j = Some w →
  (i < j)%nat → strict String.le v w.
Proof.
  intros Hs. revert i j. induction Hs as [|c l Hs IH Hc]; intros i j Hn Hi Hj Hij.
  - done.
  - apply NoDup_cons in Hn as [Hcl Hn].
    destruct j as [|j]; [lia|]. simpl in Hj.
    destruct i as [|i]; simpl in Hi.
    + injection Hi as ->.
      assert (w ∈ l) as Hw by by eapply list_elem_of_lookup_2.
      rewrite Forall_forall in Hc. split; [by apply Hc|].
      intros Hwv. assert (v = w) by (apply (anti_symm String.le); auto).
      by subst.
    + apply (IH i j); auto with lia.
Qed.

Lemma sorted_lookup_lt_iff (l : list string) (i j : nat) (v w : string) :
  StronglySorted String.le l → NoDup l →
  l !! i = Some v → l !! j = Some w →
  (i < j)%nat ↔ strict String.le v w.
Proof.
  intros Hs Hn Hi Hj. split; [by eapply sorted_lookup_lt|].
  intros [Hvw Hwv].
  destruct (decide (i < j)%nat) as [|Hge]; [done|].
  destruct (decide (i = j)) as [->|Hne].
  - rewrite Hi in Hj. injection Hj as ->. by destruct Hwv.
  - assert (strict String.le w v) as [? _]
      by (eapply (sorted_lookup_lt l j i); eauto with lia).
    by destruct Hwv.
Qed.

Lemma encode_label_Ok (le : t) (v : string) (c : Z) :
  encode_label le v = Ok c →
  ∃ i : nat, c = Z.of_nat i ∧ classes_ le !! i = Some v.
Proof.
  unfold encode_label. destruct (index_of v (classes_ le)) as [i|] eqn:Hi; [|done].
  intros [= <-]. exists i. split; [done|]. by apply index_of_Some.
Qed.

Lemma encode_label_unseen (le : t) (v : string) :
  v ∉ classes_ le → encode_label le v = Raise (ValueError v).
Proof.
  intros Hv. apply index_of_None in Hv. unfold encode_label. by rewrite Hv.
Qed.

Lemma encode_label_seen (le : t) (v : string) :
  v ∈ classes_ le →
  ∃ i : nat, encode_label le v = Ok (Z.of_nat i) ∧ classes_ le !! i = Some v.
Proof.
  intros Hv. unfold encode_label.
  destruct (index_of v (classes_ le)) as [i|] eqn:Hi.
  - exists i. split; [done|]. by apply index_of_Some.
  - by apply index_of_None in Hi.
Qed.

(** [fit_transform] never takes its second branch: every label of [y] is in
    the table fitted on [y]. *)
Lemma transform_fit_total (y0 y : list string) :
  y ⊆ y0 → ∃ codes, transform (fit y0) y = Ok codes ∧ length codes = length y.
Proof.
  induction y as [|v y IH]; intros Hsub; simpl.
  - by exists [].
  - destruct (encode_label_seen (fit y0) v) as (i & -> & _).
    { simpl. apply elem_of_unique, Hsub. left. }
    destruct IH as (codes & -> & Hlen).
    { intros x Hx. apply Hsub. by right. }
    simpl. exists (Z.of_nat i :: codes). split; [done|]. simpl. by rewrite Hlen.
Qed.

Lemma fit_transform_fit (y : list string) : (fit_transform y).1 = fit y.
Proof. unfold fit_transform. by destruct (transform (fit y) y). Qed.

End label_encoder.

(** ** The reference table *)

Lemma df_get_is_Some (col : string) (df : DataFrame) :
  is_Some (df_get col df) ↔ col ∈ columns df.
Proof.
  unfold columns. induction df as [|[name c] df IH]; simpl.
  - rewrite elem_of_nil. split; [by intros [? ?]|done].
  - rewrite elem_of_cons. case_decide as Hn.
    + split; [by left|by eauto].
    + rewrite IH. split; [by right|]. by intros [?|?]; [subst|].
Qed.

Lemma df_get_set_eq (col : string) (c : Series) (df : DataFrame) :
  df_get col (df_set col c df) = Some c.
Proof.
  induction df as [|[name c'] df IH]; simpl.
  - by rewrite decide_True.
  - case_decide as Hn; simpl; [by rewrite decide_True|by rewrite decide_False].
Qed.

Lemma df_get_set_ne (col col' : string) (c : Series) (df : DataFrame) :
  col ≠ col' → df_get col' (df_set col c df) = df_get col' df.
Proof.
  intros Hne. induction df as [|[name c'] df IH]; simpl.
  - by rewrite decide_False.
  - case_decide as Hn; simpl.
    + subst name. by rewrite !decide_False.
    + case_decide; [done|apply IH].
Qed.

Lemma df_get_drop_ne (col col' : string) (df df' : DataFrame) :
  df_drop col df = Ok df' → col ≠ col' → df_get col' df' = df_get col' df.
Proof.
  unfold df_drop. case_decide as Hin; [|done]. intros [= <-] Hne.
  clear Hin. induction df as [|[name c] df IH]; [done|].
  rewrite filter_cons. simpl. destruct (decide (name = col)) as [->|Hn].
  - rewrite decide_False by auto. rewrite decide_False; [apply IH|done].
  - rewrite decide_True by done. simpl. case_decide; [done|apply IH].
Qed.

(** ** The build loop *)

Section build.
Import LabelEncoder.

Lemma build_step_object (col : string) (values : list string) (s : Store) :
  df_get col (data s) = Some (ObjectCol values) →
  build_step col s =
    (Ok tt, mkStore (df_set col (codes_series (fit_transform values).2) (data s))
                    (<[col := fit values]> (encoders s))).
Proof.
  intros Hc. unfold build_step. rewrite bind_run. unfold get_series.
  rewrite Hc. rewrite <- (fit_transform_fit values).
  by destruct (fit_transform values).
Qed.

Lemma build_step_other (col : string) (c : Series) (s : Store) :
  df_get col (data s) = Some c → (∀ values, c ≠ ObjectCol values) →
  build_step col s = (Ok tt, s).
Proof.
  intros Hc Hno. unfold build_step. rewrite bind_run. unfold get_series.
  rewrite Hc. destruct c; [by destruct (Hno values)|done..].
Qed.

Lemma build_loop_spec (cols : list string) (s : Store) :
  cols ⊆ columns (data s) →
  ∃ s', build_loop cols s = (Ok tt, s') ∧
        ∀ c, encoders s' !! c = encoder_after cols s c.
Proof.
  revert s. induction cols as [|col rest IH]; intros s Hcols; simpl.
  - exists s. split; [done|]. intros c. unfold encoder_after.
    by destruct (df_get c (data s)) as [[]|].
  - rewrite bind_run.
    assert (is_Some (df_get col (data s))) as [x Hx].
    { apply df_get_is_Some, Hcols. left. }
    assert (rest ⊆ columns (data s)) as Hrest.
    { intros c Hc. apply Hcols. by right. }
    assert ((∃ values, x = ObjectCol values) ∨ (∀ values, x ≠ ObjectCol values))
      as [[values ->]|Hno] by (destruct x; eauto).
    + rewrite (build_step_object col values s Hx).
      destruct (IH (mkStore (df_set col (codes_series (fit_transform values).2) (data s))
                            (<[col := fit values]> (encoders s)))) as (s' & Hrun & Henc).
      { intros c Hc. simpl. apply df_get_is_Some.
        destruct (decide (col = c)) as [->|Hne].
        - rewrite df_get_set_eq. by eauto.
        - rewrite df_get_set_ne; [|done]. by apply df_get_is_Some, Hrest. }
      exists s'. split; [done|]. intros c. rewrite Henc.
      unfold encoder_after. simpl.
      destruct (decide (col = c)) as [->|Hne].
      * rewrite df_get_set_eq, Hx, lookup_insert_eq.
        rewrite decide_True by left.
        by destruct (fit_transform values).2.
      * rewrite df_get_set_ne, lookup_insert_ne; [|done..].
        destruct (df_get c (data s)) as [[]|]; try done.
        destruct (decide (c ∈ rest)) as [Hin|Hin].
        -- rewrite decide_True; [done|by right].
        -- rewrite decide_False; [done|].
           rewrite elem_of_cons. by intros [->|?].
    + rewrite (build_step_other col x s Hx Hno).
      destruct (IH s Hrest) as (s' & Hrun & Henc).
      exists s'. split; [done|]. intros c. rewrite Henc.
      unfold encoder_after.
      destruct (df_get c (data s)) as [[values| |]|] eqn:Hc; try done.
      destruct (decide (c ∈ rest)) as [Hin|Hin].
      * rewrite decide_True; [done|by right].
      * rewrite decide_False; [done|].
        rewrite elem_of_cons. intros [->|?]; [|done].
        rewrite Hc in Hx. injection Hx as <-. by destruct (Hno values).
Qed.

(** The build never raises, and [encoders] gets exactly one entry per text
    column: the encoder fitted on that column's values. *)
Lemma build_spec (s : Store) :
  ∃ s', build s = (Ok tt, s') ∧
        ∀ c, encoders s' !! c =
             match df_get c (data s) with
             | Some (ObjectCol values) => Some (fit values)
             | _ => None
             end.
Proof.
  unfold build.
  destruct (build_loop_spec (columns (data s)) (mkStore (data s) ∅))
    as (s' & Hrun & Henc); [done|].
  exists s'. split; [done|]. intros c. rewrite Henc.
  unfold encoder_after. simpl.
  destruct (df_get c (data s)) as [[values| |]|] eqn:Hc; try apply lookup_empty.
  rewrite decide_True; [done|]. apply df_get_is_Some. by eauto.
Qed.

End build.

(** ** Encoding one value *)

Section encode.
Import LabelEncoder.

Lemma transform_singleton (le : t) (v : string) :
  rbind (transform le [v]) (λ codes, list_getitem codes 0) = encode_label le v.
Proof. simpl. by destruct (encode_label le v). Qed.

Lemma encode_run (F v : string) (le : t) (s : Store) :
  encoders s !! F = Some le → encode F v s = (encode_label le v, s).
Proof.
  intros Hle. unfold encode, get_encoder, lift.
  rewrite !bind_run, Hle, bind_run. simpl.
  by destruct (encode_label le v).
Qed.

Lemma encode_missing (F v : string) (s : Store) :
  encoders s !! F = None → encode F v s = (Raise (KeyError (StrKey F)), s).
Proof.
  intros Hle. unfold encode, get_encoder. by rewrite bind_run, Hle.
Qed.

(** Encoding reads the store and never writes it. *)
Lemma encode_store (F v : string) (s : Store) : (encode F v s).2 = s.
Proof.
  destruct (encoders s !! F) as [le|] eqn:Hle.
  - by rewrite (encode_run F v le).
  - by rewrite encode_missing.
Qed.

Lemma assemble_run (st oc : string) (yb ns : Z) (mag dist : Q) (s : Store) :
  assemble st oc yb ns mag dist s =
    match (encode "struct_typ" st s).1, (encode "occ_type" oc s).1 with
    | Ok a, Ok b =>
        (Ok [[inject_Z a; inject_Z b; inject_Z yb; inject_Z ns; mag; dist]], s)
    | Ok _, Raise e => (Raise e, s)
    | Raise e, _ => (Raise e, s)
    end.
Proof.
  unfold assemble. rewrite bind_run.
  pose proof (encode_store "struct_typ" st s) as Hs.
  destruct (encode "struct_typ" st s) as [[a|e] s1]; simpl in *; subst s1; [|done].
  rewrite bind_run.
  pose proof (encode_store "occ_type" oc s) as Ho.
  by destruct (encode "occ_type" oc s) as [[b|e] s2]; simpl in *; subst s2.
Qed.

End encode.

(** ** The encoding tables *)

Section tables.
Import LabelEncoder.

(** C1.  For every text column [F] of the reference table, the build
    stores an encoder whose table [classes_] holds exactly the distinct
    values of the column, and the code of a value is its position there:
    the codes are [0 .. k-1] for [k] distinct values, every code is used,
    and codes are ordered as the strings are.  The table depends on the set
    of values only, so any rebuild from a table with the same values gives
    the identical encoder.  When the values are C1, C4, PC1, S1, URM, W1
    the codes are 0, 1, 2, 3, 4, 5 in that order. *)
Theorem encoder_codes_sorted (s : Store) (F : string) (values : list string) :
  df_get F (data s) = Some (ObjectCol values) →
  ∃ s' le,
    build s = (Ok tt, s') ∧ encoders s' !! F = Some le ∧
    NoDup (classes_ le) ∧ (∀ v, v ∈ classes_ le ↔ v ∈ values) ∧
    (∀ v, v ∈ values →
       ∃ i : nat, (i < length (classes_ le))%nat ∧ classes_ le !! i = Some v ∧
                  encode F v s' = (Ok (Z.of_nat i), s')) ∧
    (∀ i : nat, (i < length (classes_ le))%nat →
       ∃ v, v ∈ values ∧ encode F v s' = (Ok (Z.of_nat i), s')) ∧
    (∀ v w a b, encode F v s' = (Ok a, s') → encode F w s' = (Ok b, s') →
       a < b ↔ strict String.le v w) ∧
    (∀ r values', df_get F (data r) = Some (ObjectCol values') →
       (∀ v, v ∈ values' ↔ v ∈ values) →
       ∃ r', build r = (Ok tt, r') ∧ encoders r' !! F = Some le) ∧
    ((∀ v, v ∈ values ↔ v ∈ struct_codes) →
       classes_ le = ["C1"; "C4"; "PC1"; "S1"; "URM"; "W1"] ∧
       encode F "C1" s' = (Ok 0, s') ∧ encode F "C4" s' = (Ok 1, s') ∧
       encode F "PC1" s' = (Ok 2, s') ∧ encode F "S1" s' = (Ok 3, s') ∧
       encode F "URM" s' = (Ok 4, s') ∧ encode F "W1" s' = (Ok 5, s')).
Proof.
  intros HF. destruct (build_spec s) as (s' & Hrun & Henc).
  specialize (Henc F) as HencF. rewrite HF in HencF.
  exists s', (fit values). simpl.
  split; [done|]. split; [done|].
  split; [apply NoDup_unique|]. split; [apply elem_of_unique|].
  assert (∀ v, encode F v s' = (encode_label (fit values) v, s')) as Hencode.
  { intros v. by apply encode_run. }
  split_and!.
  - intros v Hv.
    destruct (encode_label_seen (fit values) v) as (i & Hi & Hlook).
    { by apply elem_of_unique. }
    exists i. split; [by eapply lookup_lt_Some|]. split; [done|].
    by rewrite Hencode, Hi.
  - intros i Hi. destruct (lookup_lt_is_Some_2 _ _ Hi) as [v Hv].
    exists v. split.
    + eapply elem_of_unique, list_elem_of_lookup_2, Hv.
    + rewrite Hencode. unfold encode_label. simpl.
      by rewrite (index_of_lookup v _ i (NoDup_unique values) Hv).
  - intros v w a b. rewrite !Hencode. intros Ha Hb.
    destruct (encode_label (fit values) v) as [a'|] eqn:Ha'; [|done].
    destruct (encode_label (fit values) w) as [b'|] eqn:Hb'; [|done].
    apply encode_label_Ok in Ha' as (i & -> & Hi).
    apply encode_label_Ok in Hb' as (j & -> & Hj).
    simplify_eq.
    rewrite <- (sorted_lookup_lt_iff (unique values) i j v w);
      auto using StronglySorted_unique_le, NoDup_unique.
    lia.
  - intros r values' Hr Hsame.
    destruct (build_spec r) as (r' & Hrun' & Henc').
    exists r'. split; [done|]. rewrite Henc', Hr. unfold fit.
    by rewrite (unique_ext values' values).
  - intros Hsix. unfold encode_label, fit in *. simpl in *.
    rewrite !Hencode. simpl.
    rewrite (unique_ext values struct_codes Hsix). by vm_compute.
Qed.

Lemma encoder_codes_sorted_witness :
  df_get "struct_typ" (data ex_store)
    = Some (ObjectCol ["URM"; "C1"; "W1"; "S1"; "C4"; "PC1"; "URM"]) ∧
  ∃ s' le, build ex_store = (Ok tt, s') ∧
           encoders s' !! "struct_typ" = Some le ∧
           classes_ le = ["C1"; "C4"; "PC1"; "S1"; "URM"; "W1"] ∧
           encode "struct_typ" "URM" s' = (Ok 4, s').
Proof.
  split; [reflexivity|].
  destruct (encoder_codes_sorted ex_store "struct_typ" _ eq_refl)
    as (s' & le & Hb & He & _ & _ & _ & _ & _ & _ & Hsix).
  exists s', le. split; [exact Hb|]. split; [exact He|].
  destruct Hsix as (Hc & _ & _ & _ & _ & Hurm & _).
  - intros v. unfold struct_codes. rewrite !elem_of_cons, !elem_of_nil. tauto.
  - split; [exact Hc|exact Hurm].
Defined.

(** C3.  A value that does not occur in the column [F] of the reference
    table is not encoded: [encode] raises the unseen-label [ValueError] for
    it, and whatever [encode] returns a code for does occur in the column.
    The error reaches the caller: building the row [X] with such a value
    raises as well. *)
Theorem encode_unseen_raises (s : Store) (F : string) (values : list string)
    (v : string) :
  df_get F (data s) = Some (ObjectCol values) → v ∉ values →
  ∃ s', build s = (Ok tt, s') ∧
        encode F v s' = (Raise (ValueError v), s') ∧
        (∀ w c r, encode F w s' = (Ok c, r) → w ∈ values) ∧
        (F = "struct_typ" → ∀ oc yb ns mag dist,
           assemble v oc yb ns mag dist s' = (Raise (ValueError v), s')) ∧
        (F = "occ_type" → ∀ st yb ns mag dist,
           ∃ e, assemble st v yb ns mag dist s' = (Raise e, s')).
Proof.
  intros HF Hv. destruct (build_spec s) as (s' & Hrun & Henc).
  specialize (Henc F) as HencF. rewrite HF in HencF.
  assert (∀ w, encode F w s' = (encode_label (fit values) w, s')) as Hencode.
  { intros w. by apply encode_run. }
  assert (encode F v s' = (Raise (ValueError v), s')) as Hraise.
  { rewrite Hencode, encode_label_unseen; [done|].
    simpl. by rewrite elem_of_unique. }
  exists s'. split_and!; try done.
  - intros w c r. rewrite Hencode. intros [= Hw _].
    apply encode_label_Ok in Hw as (i & _ & Hi).
    eapply elem_of_unique, list_elem_of_lookup_2, Hi.
  - intros -> oc yb ns mag dist. by rewrite assemble_run, Hraise.
  - intros -> st yb ns mag dist. rewrite assemble_run, Hraise. simpl.
    destruct (encode "struct_typ" st s').1; eauto.
Qed.

Lemma encode_unseen_raises_witness :
  ("UNKNOWN_CODE" ∉ ["URM"; "C1"; "W1"; "S1"; "C4"; "PC1"; "URM"]) ∧
  ∃ s', build ex_store = (Ok tt, s') ∧
        encode "struct_typ" "UNKNOWN_CODE" s'
          = (Raise (ValueError "UNKNOWN_CODE"), s').
Proof.
  assert ("UNKNOWN_CODE" ∉ ["URM"; "C1"; "W1"; "S1"; "C4"; "PC1"; "URM"]) as Hno.
  { rewrite !not_elem_of_cons. split_and!; try discriminate. apply not_elem_of_nil. }
  split; [exact Hno|].
  destruct (encode_unseen_raises ex_store "struct_typ" _ "UNKNOWN_CODE" eq_refl Hno)
    as (s' & Hb & Hr & _).
  exists s'. split; [exact Hb|exact Hr].
Defined.

End tables.

(** ** The feature row *)

(** C2.  When both raw codes are in their tables, and the integers are
    ones that float64 holds without rounding, as the values of the form's
    number inputs are, [assemble] returns the array [X] with its single row
    of six entries, in the order structural code, occupancy code, year built,
    story count, magnitude, distance; the four numeric inputs are the entries
    2 to 5 as given, and the store is left as it was. *)
Theorem assemble_feature_vector (s : Store) (st oc : string) (a b yb ns : Z)
    (mag dist : Q) :
  (encode "struct_typ" st s).1 = Ok a → (encode "occ_type" oc s).1 = Ok b →
  float64_exact a → float64_exact b → float64_exact yb → float64_exact ns →
  ∃ row, assemble st oc yb ns mag dist s = (Ok [row], s) ∧
         length row = 6%nat ∧
         row = [inject_Z a; inject_Z b; inject_Z yb; inject_Z ns; mag; dist] ∧
         row !! 0%nat = Some (inject_Z a) ∧ row !! 1%nat = Some (inject_Z b) ∧
         row !! 2%nat = Some (inject_Z yb) ∧ row !! 3%nat = Some (inject_Z ns) ∧
         row !! 4%nat = Some mag ∧ row !! 5%nat = Some dist.
Proof.
  intros Ha Hb _ _ _ _. rewrite assemble_run, Ha, Hb.
  eexists. split; [reflexivity|]. by split_and!.
Qed.

Lemma assemble_feature_vector_witness :
  let s := (build ex_store).2 in
  (encode "struct_typ" "URM" s).1 = Ok 4 ∧ (encode "occ_type" "RES1" s).1 = Ok 6 ∧
  float64_exact 4 ∧ float64_exact 6 ∧ float64_exact 2017 ∧ float64_exact 30 ∧
  assemble "URM" "RES1" 2017 30 (5#1) (3#1) s
    = (Ok [[4#1; 6#1; 2017#1; 30#1; 5#1; 3#1]]%Q, s).
Proof.
  intros s.
  assert ((encode "struct_typ" "URM" s).1 = Ok 4) as Ha by (vm_compute; reflexivity).
  assert ((encode "occ_type" "RES1" s).1 = Ok 6) as Hb by (vm_compute; reflexivity).
  assert (float64_exact 4) as H4 by (unfold float64_exact; lia).
  assert (float64_exact 6) as H6 by (unfold float64_exact; lia).
  assert (float64_exact 2017) as Hy by (unfold float64_exact; lia).
  assert (float64_exact 30) as Hn by (unfold float64_exact; lia).
  split_and!; try assumption.
  destruct (assemble_feature_vector s "URM" "RES1" 4 6 2017 30 (5#1) (3#1)
              Ha Hb H4 H6 Hy Hn) as (row & Hrun & _ & -> & _).
  exact Hrun.
Defined.

(** ** Failed requests *)

(** C8.  An [encode] that raises leaves the store, and so the encoders, as
    they were: every value that had a code before the failure is encoded to
    the same code after it.  The same holds when building the row [X]
    raises. *)
Theorem failed_encode_keeps_registry (s s' : Store) (F v : string) (e : exception) :
  encode F v s = (Raise e, s') →
  s' = s ∧ encoders s' = encoders s ∧
  (∀ G w c, (encode G w s).1 = Ok c → encode G w s' = (Ok c, s')) ∧
  (∀ st oc yb ns mag dist e' r,
     assemble st oc yb ns mag dist s = (Raise e', r) → r = s).
Proof.
  intros Hfail. pose proof (encode_store F v s) as Hs.
  rewrite Hfail in Hs. simpl in Hs. subst s'.
  split_and!; try done.
  - intros G w c Hc. pose proof (encode_store G w s) as Hs.
    destruct (encode G w s) as [r s1]. simpl in *. by subst.
  - intros st oc yb ns mag dist e' r. rewrite assemble_run.
    destruct (encode "struct_typ" st s).1; [|by intros [= _ <-]].
    destruct (encode "occ_type" oc s).1; [done|by intros [= _ <-]].
Qed.

Lemma failed_encode_keeps_registry_witness :
  let s := (build ex_store).2 in
  encode "struct_typ" "UNKNOWN_CODE" s = (Raise (ValueError "UNKNOWN_CODE"), s) ∧
  encode "struct_typ" "URM" s = (Ok 4, s).
Proof.
  intros s.
  assert (encode "struct_typ" "UNKNOWN_CODE" s
          = (Raise (ValueError "UNKNOWN_CODE"), s)) as Hfail
    by (vm_compute; reflexivity).
  split; [exact Hfail|].
  destruct (failed_encode_keeps_registry s s "struct_typ" "UNKNOWN_CODE" _ Hfail)
    as (_ & _ & Hsame & _).
  apply Hsame. vm_compute. reflexivity.
Defined.

(** ** Dictionaries *)

Lemma dict_lookup_elem {K V} `{EqDecision K} (k : K) (v : V) (d : dict K V) :
  dict_lookup k d = Some v → (k, v) ∈ d.
Proof.
  induction d as [|[k' v'] d IH]; simpl; [done|].
  case_decide as Hk.
  - intros [= ->]. subst. left.
  - intros Hv. right. by apply IH.
Qed.

Lemma dict_lookup_keys {K V} `{EqDecision K} (k : K) (d : dict K V) :
  k ∈ keys d → is_Some (dict_lookup k d).
Proof.
  unfold keys. induction d as [|[k' v'] d IH]; simpl.
  - by rewrite elem_of_nil.
  - rewrite elem_of_cons. case_decide as Hk; [by eauto|].
    intros [->|Hin]; [done|by apply IH].
Qed.

(** A key offered by a selectbox is found, and its value is a value of the
    dict. *)
Lemma getitem_keys {K V} `{EqDecision K, AsKey K} (k : K) (d : dict K V) :
  k ∈ keys d → ∃ v, getitem d k = Ok v ∧ v ∈ d.*2.
Proof.
  intros Hk. destruct (dict_lookup_keys k d Hk) as [v Hv].
  exists v. unfold getitem. rewrite Hv. split; [done|].
  apply dict_lookup_elem in Hv. apply list_elem_of_fmap. by exists (k, v).
Qed.

Lemma dict_get_cases {K V} `{EqDecision K} (k : K) (d : dict K V) (default : V) :
  dict_get d k default ∈ d.*2 ∨ dict_get d k default = default.
Proof.
  unfold dict_get. destruct (dict_lookup k d) as [v|] eqn:Hv; [left|by right].
  apply dict_lookup_elem in Hv. apply list_elem_of_fmap. by exists (k, v).
Qed.

(** ** The catalogs *)

(** Every locale lists the same structural codes, in the same order. *)
Lemma STRUCT_TYPES_codes :
  Forall (λ d : dict string string, d.*2 = struct_catalog_codes)
         (STRUCT_TYPES_BY_LANG.*2).
Proof. apply (bool_decide_unpack _). by vm_compute. Qed.

(** Every locale lists the same occupancy families, in the same order. *)
Lemma OCC_TYPES_families :
  Forall (λ d : dict string (list string), d.*2 = occ_families)
         (OCC_TYPES_BY_LANG.*2).
Proof. apply (bool_decide_unpack _). by vm_compute. Qed.

(** No label occurs twice in a catalog, so no entry of the dict literals
    overrides another. *)
Lemma catalogs_NoDup :
  NoDup (keys TRANSLATIONS) ∧ NoDup (keys OCC_TYPES_BY_LANG) ∧
  NoDup (keys STRUCT_TYPES_BY_LANG) ∧
  Forall (λ d : dict string (list string), NoDup (keys d)) (OCC_TYPES_BY_LANG.*2) ∧
  Forall (λ d : dict string string, NoDup (keys d)) (STRUCT_TYPES_BY_LANG.*2).
Proof. split_and!; apply (bool_decide_unpack _); by vm_compute. Qed.

Lemma struct_type_display_codes (lang : string) :
  (struct_type_display lang).*2 = struct_catalog_codes.
Proof.
  pose proof STRUCT_TYPES_codes as Hall. rewrite Forall_forall in Hall.
  unfold struct_type_display.
  destruct (dict_get_cases lang STRUCT_TYPES_BY_LANG STRUCT_TYPES_en) as [Hin| ->].
  - by apply Hall.
  - reflexivity.
Qed.

Lemma occ_type_display_families (lang : string) :
  (occ_type_display lang).*2 = occ_families.
Proof.
  pose proof OCC_TYPES_families as Hall. rewrite Forall_forall in Hall.
  unfold occ_type_display.
  destruct (dict_get_cases lang OCC_TYPES_BY_LANG OCC_TYPES_en) as [Hin| ->].
  - by apply Hall.
  - reflexivity.
Qed.

Lemma struct_typ_keys (lang label : string) :
  label ∈ keys (struct_type_display lang) →
  ∃ code, struct_typ lang label = Ok code ∧ code ∈ struct_catalog_codes.
Proof.
  intros Hl. rewrite <- (struct_type_display_codes lang).
  by apply getitem_keys.
Qed.

Lemma occ_family_keys (lang label : string) :
  label ∈ keys (occ_type_display lang) →
  ∃ family, getitem (occ_type_display lang) label = Ok family ∧
            family ∈ occ_families.
Proof.
  intros Hl. rewrite <- (occ_type_display_families lang).
  by apply getitem_keys.
Qed.

(** Each family is non-empty and starts with one of the seven first codes. *)
Lemma occ_families_first (family : list string) :
  family ∈ occ_families →
  ∃ code rest, family = code :: rest ∧ code ∈ occ_first_codes.
Proof.
  unfold occ_families, occ_first_codes. rewrite !elem_of_cons, elem_of_nil.
  intros Hf. destruct_or!; try done; subst; eexists _, _;
    (split; [reflexivity|]); rewrite !elem_of_cons; tauto.
Qed.

(** A label of the occupancy selectbox resolves to the first code of its
    family. *)
Lemma occ_type_code_keys (lang label : string) :
  label ∈ keys (occ_type_display lang) →
  ∃ code rest,
    getitem (occ_type_display lang) label = Ok (code :: rest) ∧
    (code :: rest) ∈ occ_families ∧
    occ_type_code lang label = Ok code ∧
    code ∈ occ_first_codes.
Proof.
  intros Hl. destruct (occ_family_keys lang label Hl) as (family & Hget & Hfam).
  destruct (occ_families_first family Hfam) as (code & rest & -> & Hcode).
  exists code, rest. unfold occ_type_code. rewrite Hget. by split_and!.
Qed.

(** C5.  In every locale, a label of the occupancy selectbox is mapped by
    the catalog to one of the seven fixed families, and [occ_type_code] is
    the first code of that family; a label mapped to the family RES1, RES3,
    RES4 gives RES1, as the English label Residential does. *)
Theorem occ_label_first_of_family (lang label : string) :
  label ∈ keys (occ_type_display lang) →
  ∃ code rest,
    getitem (occ_type_display lang) label = Ok (code :: rest) ∧
    (code :: rest) ∈ occ_families ∧
    occ_type_code lang label = Ok code ∧
    code ∈ occ_first_codes ∧
    (code :: rest = ["RES1"; "RES3"; "RES4"] → occ_type_code lang label = Ok "RES1") ∧
    occ_type_code "en" "Residential" = Ok "RES1".
Proof.
  intros Hl.
  destruct (occ_type_code_keys lang label Hl) as (code & rest & Hget & Hfam & Hoc & Hin).
  exists code, rest. split_and!; try done. by intros [= -> _].
Qed.

Lemma occ_label_first_of_family_witness :
  "Ticari (Commercial)" ∈ keys (occ_type_display "tr") ∧
  occ_type_code "tr" "Ticari (Commercial)" = Ok "COM1".
Proof.
  assert ("Ticari (Commercial)" ∈ keys (occ_type_display "tr")) as Hl.
  { apply (bool_decide_unpack _). vm_compute. reflexivity. }
  split; [exact Hl|].
  destruct (occ_label_first_of_family "tr" "Ticari (Commercial)" Hl)
    as (code & rest & Hget & _ & Hcode & _).
  rewrite Hcode. vm_compute in Hget. injection Hget as <- _. reflexivity.
Defined.

(** C4.  Two locales list the same canonical codes, and when the labels
    chosen in two locales resolve to the same structural code and the same
    occupancy code, the same numeric inputs give the same result of building
    the row [X], whichever locale's labels were used. *)
Theorem locale_independence (s : Store) (L1 L2 : string) (f1 f2 : FormInput)
    (st oc : string) :
  struct_typ L1 (struct_display_choice f1) = Ok st →
  struct_typ L2 (struct_display_choice f2) = Ok st →
  occ_type_code L1 (occ_choice f1) = Ok oc →
  occ_type_code L2 (occ_choice f2) = Ok oc →
  year_built f1 = year_built f2 → no_stories f1 = no_stories f2 →
  magnitude f1 = magnitude f2 → distance f1 = distance f2 →
  (struct_type_display L1).*2 = (struct_type_display L2).*2 ∧
  (occ_type_display L1).*2 = (occ_type_display L2).*2 ∧
  form_X L1 f1 s = form_X L2 f2 s ∧
  form_X L1 f1 s
    = assemble st oc (year_built f1) (no_stories f1) (magnitude f1) (distance f1) s.
Proof.
  intros Hs1 Hs2 Ho1 Ho2 Hy Hn Hm Hd.
  rewrite !struct_type_display_codes, !occ_type_display_families.
  split; [done|]. split; [done|].
  unfold form_X, lift. rewrite !bind_run, Hs1, Hs2, !bind_run, Ho1, Ho2.
  by rewrite Hy, Hn, Hm, Hd.
Qed.

Lemma locale_independence_witness :
  let s := (build ex_store).2 in
  form_X "en" (mkForm "Wooden Frame (W1)" "Governmental" 2000 3 (5#1) (3#1)) s
  = form_X "de" (mkForm "Holzrahmen (W1)" "Staatlich" 2000 3 (5#1) (3#1)) s.
Proof.
  intros s.
  apply (locale_independence s "en" "de"
           (mkForm "Wooden Frame (W1)" "Governmental" 2000 3 (5#1) (3#1))
           (mkForm "Holzrahmen (W1)" "Staatlich" 2000 3 (5#1) (3#1))
           "W1" "GOV1");
    vm_compute; reflexivity.
Defined.

(** C10.  When the [struct_typ] column of the reference table contains the
    six structural codes and the [occ_type] column contains the first code of
    each occupancy family, then in every locale every pair of labels that the
    two selectboxes offer resolves to codes that are in the encoders' tables:
    building the row [X] succeeds and no exception is raised. *)
Theorem form_encoding_never_fails (s : Store) (sv ov : list string)
    (lang : string) (f : FormInput) :
  df_get "struct_typ" (data s) = Some (ObjectCol sv) →
  df_get "occ_type" (data s) = Some (ObjectCol ov) →
  struct_codes ⊆ sv → occ_first_codes ⊆ ov →
  struct_display_choice f ∈ keys (struct_type_display lang) →
  occ_choice f ∈ keys (occ_type_display lang) →
  ∃ s' st oc a b,
    build s = (Ok tt, s') ∧
    struct_typ lang (struct_display_choice f) = Ok st ∧
    occ_type_code lang (occ_choice f) = Ok oc ∧
    encode "struct_typ" st s' = (Ok a, s') ∧
    encode "occ_type" oc s' = (Ok b, s') ∧
    form_X lang f s'
      = (Ok [[inject_Z a; inject_Z b; inject_Z (year_built f);
              inject_Z (no_stories f); magnitude f; distance f]], s').
Proof.
  intros Hsv Hov Hs Ho Hsl Hol.
  destruct (build_spec s) as (s' & Hrun & Henc).
  pose proof (Henc "struct_typ") as Hes. rewrite Hsv in Hes.
  pose proof (Henc "occ_type") as Heo. rewrite Hov in Heo.
  destruct (struct_typ_keys lang _ Hsl) as (st & Hst & Hstin).
  destruct (occ_type_code_keys lang _ Hol) as (oc & rest & _ & _ & Hoc & Hocin).
  assert (st ∈ sv) as Hst_sv.
  { apply Hs. revert Hstin. unfold struct_catalog_codes, struct_codes.
    rewrite !elem_of_cons, !elem_of_nil. tauto. }
  assert (oc ∈ ov) as Hoc_ov by by apply Ho.
  destruct (encode_label_seen (LabelEncoder.fit sv) st) as (i & Hi & _).
  { simpl. by apply elem_of_unique. }
  destruct (encode_label_seen (LabelEncoder.fit ov) oc) as (j & Hj & _).
  { simpl. by apply elem_of_unique. }
  assert (encode "struct_typ" st s' = (Ok (Z.of_nat i), s')) as Ha.
  { by rewrite (encode_run _ _ _ _ Hes), Hi. }
  assert (encode "occ_type" oc s' = (Ok (Z.of_nat j), s')) as Hb.
  { by rewrite (encode_run _ _ _ _ Heo), Hj. }
  exists s', st, oc, (Z.of_nat i), (Z.of_nat j). split_and!; try done.
  unfold form_X, lift. rewrite !bind_run, Hst, !bind_run, Hoc.
  by rewrite assemble_run, Ha, Hb.
Qed.

Lemma form_encoding_never_fails_witness :
  ∃ s', build ex_store = (Ok tt, s') ∧
        form_X "fa" (mkForm "قاب چوبی (W1)" "دولتی" 2000 0 (5#1) (3#1)) s'
          = (Ok [[5#1; 3#1; 2000#1; 0#1; 5#1; 3#1]]%Q, s').
Proof.
  destruct (form_encoding_never_fails ex_store _ _ "fa"
              (mkForm "قاب چوبی (W1)" "دولتی" 2000 0 (5#1) (3#1)) eq_refl eq_refl)
    as (s' & st & oc & a & b & Hb & Hst & Hoc & Ha & Hbb & HX).
  - apply (bool_decide_unpack _). vm_compute. reflexivity.
  - apply (bool_decide_unpack _). vm_compute. reflexivity.
  - apply (bool_decide_unpack _). vm_compute. reflexivity.
  - apply (bool_decide_unpack _). vm_compute. reflexivity.
  - exists s'. split; [exact Hb|]. rewrite HX.
    vm_compute in Hst. injection Hst as <-.
    vm_compute in Hoc. injection Hoc as <-.
    assert (s' = (build ex_store).2) as -> by (by rewrite Hb).
    vm_compute in Ha. injection Ha as <-.
    vm_compute in Hbb. injection Hbb as <-.
    reflexivity.
Defined.

(** ** Decoding *)

Section decode.
Import LabelEncoder.

Lemma decode_run (F : string) (c : Z) (le : t) (s : Store) :
  encoders s !! F = Some le → decode F c s = (decode_label le c, s).
Proof.
  intros Hle. unfold decode, get_encoder, lift.
  rewrite !bind_run, Hle, bind_run. simpl.
  by destruct (decode_label le c).
Qed.

Lemma decode_label_Ok (le : t) (c : Z) (v : string) :
  decode_label le c = Ok v ↔ 0 ≤ c ∧ classes_ le !! Z.to_nat c = Some v.
Proof.
  unfold decode_label. case_decide as Hc.
  - destruct (classes_ le !! Z.to_nat c) as [w|]; split.
    + by intros [= ->].
    + by intros [_ [= ->]].
    + done.
    + by intros [_ ?].
  - split; [done|]. by intros [? _].
Qed.

(** C6.  For every text column [F], encoding a value of the column and
    decoding the code gives the value back; decoding a code and encoding
    the label gives the code back, and only values of the column are ever
    decoded; so the table is a bijection between the distinct values of
    the column and their codes. *)
Theorem encode_decode_roundtrip (s : Store) (F : string) (values : list string) :
  df_get F (data s) = Some (ObjectCol values) →
  ∃ s', build s = (Ok tt, s') ∧
    (∀ v, v ∈ values →
       ∃ c, encode F v s' = (Ok c, s') ∧ decode F c s' = (Ok v, s')) ∧
    (∀ c v, decode F c s' = (Ok v, s') →
       v ∈ values ∧ encode F v s' = (Ok c, s')) ∧
    (∀ v w c, encode F v s' = (Ok c, s') → encode F w s' = (Ok c, s') → v = w) ∧
    (∀ c d v, decode F c s' = (Ok v, s') → decode F d s' = (Ok v, s') → c = d).
Proof.
  intros HF. destruct (build_spec s) as (s' & Hrun & Henc).
  specialize (Henc F) as HencF. rewrite HF in HencF.
  assert (∀ w, encode F w s' = (encode_label (fit values) w, s')) as Hencode.
  { intros w. by apply encode_run. }
  assert (∀ c, decode F c s' = (decode_label (fit values) c, s')) as Hdecode.
  { intros c. by apply decode_run. }
  assert (∀ c v, decode_label (fit values) c = Ok v →
                 v ∈ values ∧ encode_label (fit values) v = Ok c) as Hback.
  { intros c v Hc. apply decode_label_Ok in Hc as [Hc Hv]. simpl in Hv. split.
    - eapply elem_of_unique, list_elem_of_lookup_2, Hv.
    - unfold encode_label. simpl.
      rewrite (index_of_lookup v _ _ (NoDup_unique values) Hv).
      f_equal. lia. }
  exists s'. split_and!; [done|..].
  - intros v Hv.
    destruct (encode_label_seen (fit values) v) as (i & Hi & Hlook).
    { by apply elem_of_unique. }
    exists (Z.of_nat i). rewrite Hencode, Hdecode, Hi. split; [done|].
    f_equal. apply decode_label_Ok. rewrite Nat2Z.id. split; [lia|done].
  - intros c v. rewrite Hdecode, Hencode. intros [= Hc].
    destruct (Hback c v Hc) as [? ->]. done.
  - intros v w c. rewrite !Hencode. intros [= Hv] [= Hw].
    apply encode_label_Ok in Hv as (i & -> & Hi).
    apply encode_label_Ok in Hw as (j & Hij & Hj).
    assert (i = j) as -> by lia. congruence.
  - intros c d v. rewrite !Hdecode. intros [= Hc] [= Hd].
    apply Hback in Hc as [_ Hc]. apply Hback in Hd as [_ Hd]. congruence.
Qed.

Lemma encode_decode_roundtrip_witness :
  ∃ s', build ex_store = (Ok tt, s') ∧
        encode "occ_type" "RES1" s' = (Ok 6, s') ∧
        decode "occ_type" 6 s' = (Ok "RES1", s').
Proof.
  destruct (encode_decode_roundtrip ex_store "occ_type" _ eq_refl)
    as (s' & Hb & Hrt & _).
  exists s'. split; [exact Hb|].
  destruct (Hrt "RES1") as (c & He & Hd).
  { apply (bool_decide_unpack _). vm_compute. reflexivity. }
  assert (c = 6) as ->; [|by split].
  assert (s' = (build ex_store).2) as Hs by (by rewrite Hb).
  rewrite Hs in He. vm_compute in He. by injection He as <-.
Defined.

End decode.

(** ** Tables without records or without a field *)

Section degenerate.
Import LabelEncoder.

(** The build accepts a table without records and a table without the
    [occ_type] field: neither makes it raise. *)
Lemma build_accepts_empty_and_incomplete :
  (startup empty_csv).1 = Ok tt ∧ (∀ e, (startup empty_csv).1 ≠ Raise e) ∧
  (startup no_occ_csv).1 = Ok tt ∧ (∀ e, (startup no_occ_csv).1 ≠ Raise e).
Proof.
  assert ((startup empty_csv).1 = Ok tt) as H1 by (vm_compute; reflexivity).
  assert ((startup no_occ_csv).1 = Ok tt) as H2 by (vm_compute; reflexivity).
  rewrite H1, H2. by split_and!.
Qed.

(** C7, as the script behaves.  The build itself never raises.  For a
    field [F] that the table lacks, [encoders] gets no entry and every
    later [encode] of [F] raises the [KeyError] of the missing entry; for a
    text column without records the encoder's table is empty and every
    later [encode] raises the unseen-label [ValueError].  For the two
    fields the form uses, building the row [X] then raises whatever was
    chosen. *)
Theorem build_total_errors_at_encode (s : Store) (F : string) :
  df_get F (data s) = None ∨ df_get F (data s) = Some (ObjectCol []) →
  ∃ s', build s = (Ok tt, s') ∧
    (df_get F (data s) = None →
       encoders s' !! F = None ∧
       ∀ v, encode F v s' = (Raise (KeyError (StrKey F)), s')) ∧
    (df_get F (data s) = Some (ObjectCol []) →
       ∃ le, encoders s' !! F = Some le ∧ classes_ le = [] ∧
       ∀ v, encode F v s' = (Raise (ValueError v), s')) ∧
    (F = "struct_typ" ∨ F = "occ_type" →
       ∀ st oc yb ns mag dist,
         ∃ e, assemble st oc yb ns mag dist s' = (Raise e, s')).
Proof.
  intros Hbad. destruct (build_spec s) as (s' & Hrun & Henc).
  specialize (Henc F) as HencF.
  assert (∀ v, ∃ e, encode F v s' = (Raise e, s')) as Hraise.
  { intros v. destruct Hbad as [Hn|He].
    - rewrite Hn in HencF. rewrite (encode_missing _ _ _ HencF). eauto.
    - rewrite He in HencF. rewrite (encode_run _ _ _ _ HencF).
      rewrite encode_label_unseen; [eauto|]. simpl.
      rewrite elem_of_unique. apply not_elem_of_nil. }
  exists s'. split_and!; [done|..].
  - intros Hn. rewrite Hn in HencF. split; [done|].
    intros v. by apply encode_missing.
  - intros He. rewrite He in HencF. exists (fit []).
    split; [done|]. split; [by vm_compute|]. intros v.
    rewrite (encode_run _ _ _ _ HencF), encode_label_unseen; [done|].
    simpl. rewrite elem_of_unique. apply not_elem_of_nil.
  - intros HF st oc yb ns mag dist. rewrite assemble_run.
    destruct HF as [-> | ->].
    + destruct (Hraise st) as [e ->]. simpl. eauto.
    + destruct (Hraise oc) as [e ->]. simpl.
      destruct (encode "struct_typ" st s').1; eauto.
Qed.

Lemma build_total_errors_at_encode_witness :
  df_get "occ_type" (data (mkStore no_occ_data ∅)) = None ∧
  ∃ s', build (mkStore no_occ_data ∅) = (Ok tt, s') ∧
        encode "occ_type" "RES1" s' = (Raise (KeyError (StrKey "occ_type")), s').
Proof.
  split; [reflexivity|].
  destruct (build_total_errors_at_encode (mkStore no_occ_data ∅) "occ_type")
    as (s' & Hb & Habsent & _).
  - left. reflexivity.
  - exists s'. split; [exact Hb|]. apply Habsent. reflexivity.
Defined.

End degenerate.

(** ** The displayed damage class *)

Lemma damage_class_run (lang : string) (pred : Z) (dm : dict Z string) :
  rbind (getitem TRANSLATIONS lang) damage_map = Ok dm →
  damage_class lang pred = getitem dm pred.
Proof.
  unfold damage_class. destruct (getitem TRANSLATIONS lang) as [t|]; simpl; [|done].
  by intros ->.
Qed.

Lemma getitem_three (a b c : string) (pred : Z) :
  getitem [(0, a); (1, b); (2, c)] pred =
    if decide (pred = 0) then Ok a
    else if decide (pred = 1) then Ok b
    else if decide (pred = 2) then Ok c
    else Raise (KeyError (IntKey pred)).
Proof.
  unfold getitem. simpl. repeat case_decide; try done; lia.
Qed.

(** The three labels of a locale, and the [damage_map] made of them. *)
Lemma damage_map_locale (lang : string) :
  lang ∈ locales →
  ∃ safe high_risk collapsed,
    label_of lang "safe" = Ok safe ∧
    label_of lang "high_risk" = Ok high_risk ∧
    label_of lang "collapsed" = Ok collapsed ∧
    rbind (getitem TRANSLATIONS lang) damage_map
      = Ok [ (0, "🟢 " +:+ safe); (1, "🟠 " +:+ high_risk); (2, "🔴 " +:+ collapsed) ].
Proof.
  unfold locales, keys. simpl. rewrite !elem_of_cons, elem_of_nil.
  intros Hl. destruct_or!; try done; subst lang;
    eexists _, _, _; (split_and!; [vm_compute; reflexivity..|]);
    vm_compute; reflexivity.
Qed.

(** C9.  In every locale the label [0] is displayed as the locale's Safe
    text, [1] as its High Risk text and [2] as its Collapsed text, each after
    its coloured mark; whatever is displayed is one of these three, and any
    other label raises a [KeyError] instead of being displayed.  In English
    the three texts are Safe, High Risk and Collapsed. *)
Theorem damage_class_enumeration (lang : string) (pred : Z) :
  lang ∈ locales →
  ∃ safe high_risk collapsed,
    label_of lang "safe" = Ok safe ∧
    label_of lang "high_risk" = Ok high_risk ∧
    label_of lang "collapsed" = Ok collapsed ∧
    damage_class lang 0 = Ok ("🟢 " +:+ safe) ∧
    damage_class lang 1 = Ok ("🟠 " +:+ high_risk) ∧
    damage_class lang 2 = Ok ("🔴 " +:+ collapsed) ∧
    (∀ shown, damage_class lang pred = Ok shown →
       (pred = 0 ∧ shown = "🟢 " +:+ safe) ∨
       (pred = 1 ∧ shown = "🟠 " +:+ high_risk) ∨
       (pred = 2 ∧ shown = "🔴 " +:+ collapsed)) ∧
    (pred ∉ [0; 1; 2] → damage_class lang pred = Raise (KeyError (IntKey pred))) ∧
    damage_class "en" 0 = Ok "🟢 Safe" ∧
    damage_class "en" 1 = Ok "🟠 High Risk" ∧
    damage_class "en" 2 = Ok "🔴 Collapsed".
Proof.
  intros Hl.
  destruct (damage_map_locale lang Hl) as (safe & high & coll & Hs & Hh & Hc & Hdm).
  exists safe, high, coll.
  assert (∀ p, damage_class lang p =
               if decide (p = 0) then Ok ("🟢 " +:+ safe)
               else if decide (p = 1) then Ok ("🟠 " +:+ high)
               else if decide (p = 2) then Ok ("🔴 " +:+ coll)
               else Raise (KeyError (IntKey p))) as Hrun.
  { intros p. rewrite (damage_class_run lang p _ Hdm). apply getitem_three. }
  split_and!; try done; try (by rewrite Hrun).
  - intros shown. rewrite Hrun. repeat case_decide; intros [= <-]; auto.
  - rewrite !not_elem_of_cons. intros (? & ? & ? & _). rewrite Hrun.
    by rewrite !decide_False.
Qed.

Lemma damage_class_enumeration_witness :
  "ru" ∈ locales ∧ damage_class "ru" 2 = Ok "🔴 Обрушено".
Proof.
  assert ("ru" ∈ locales) as Hl.
  { apply (bool_decide_unpack _). vm_compute. reflexivity. }
  split; [exact Hl|].
  destruct (damage_class_enumeration "ru" 2 Hl)
    as (safe & high & coll & _ & _ & Hc & _ & _ & H2 & _).
  rewrite H2. vm_compute in Hc. injection Hc as <-. reflexivity.
Defined.

(** * Further properties of the script *)

(** ** The table after the build *)

Section build_data.
Import LabelEncoder.

Lemma columns_df_set (col : string) (c : Series) (df : DataFrame) :
  col ∈ columns df → columns (df_set col c df) = columns df.
Proof.
  unfold columns. induction df as [|[name c'] df IH]; simpl.
  - by rewrite elem_of_nil.
  - rewrite elem_of_cons. intros Hin. case_decide as Hn; simpl; [done|].
    f_equal. apply IH. by destruct Hin as [->|?].
Qed.

Lemma df_get_drop_eq (col : string) (df df' : DataFrame) :
  df_drop col df = Ok df' → df_get col df' = None.
Proof.
  unfold df_drop. case_decide as Hin; [|done]. intros [= <-]. clear Hin.
  induction df as [|[name c] df IH]; [done|].
  rewrite filter_cons. simpl. destruct (decide (name = col)) as [->|Hn].
  - by rewrite decide_False by auto.
  - rewrite decide_True by done. simpl. by rewrite decide_False.
Qed.

Lemma codes_series_numeric (codes : list Z) (values : list string) :
  codes_series codes ≠ ObjectCol values.
Proof. by destruct codes. Qed.

(** The column [c] of the table once the loop has visited [cols]. *)
Lemma build_loop_data (cols : list string) (s : Store) :
  cols ⊆ columns (data s) →
  ∃ s', build_loop cols s = (Ok tt, s') ∧
        columns (data s') = columns (data s) ∧
        ∀ c, df_get c (data s') =
             match df_get c (data s) with
             | Some (ObjectCol values) =>
                 if decide (c ∈ cols)
                 then Some (codes_series (fit_transform values).2)
                 else Some (ObjectCol values)
             | other => other
             end.
Proof.
  revert s. induction cols as [|col rest IH]; intros s Hcols; simpl.
  - exists s. split; [done|]. split; [done|]. intros c.
    by destruct (df_get c (data s)) as [[]|].
  - rewrite bind_run.
    assert (col ∈ columns (data s)) as Hcol by (apply Hcols; left).
    destruct (proj2 (df_get_is_Some col (data s)) Hcol) as [x Hx].
    assert (rest ⊆ columns (data s)) as Hrest.
    { intros c Hc. apply Hcols. by right. }
    assert ((∃ values, x = ObjectCol values) ∨ (∀ values, x ≠ ObjectCol values))
      as [[values ->]|Hno] by (destruct x; eauto).
    + rewrite (build_step_object col values s Hx).
      destruct (IH (mkStore (df_set col (codes_series (fit_transform values).2) (data s))
                            (<[col := fit values]> (encoders s))))
        as (s' & Hrun & Hnames & Hdata).
      { simpl. by rewrite columns_df_set. }
      exists s'. split; [done|]. simpl in Hnames, Hdata.
      split; [by rewrite Hnames, columns_df_set|].
      intros c. rewrite Hdata.
      destruct (decide (col = c)) as [->|Hne].
      * rewrite df_get_set_eq, Hx. rewrite decide_True by left.
        by destruct (fit_transform values).2.
      * rewrite df_get_set_ne; [|done].
        destruct (df_get c (data s)) as [[]|]; try done.
        destruct (decide (c ∈ rest)) as [Hin|Hin].
        -- rewrite decide_True; [done|by right].
        -- rewrite decide_False; [done|].
           rewrite elem_of_cons. by intros [->|?].
    + rewrite (build_step_other col x s Hx Hno).
      destruct (IH s Hrest) as (s' & Hrun & Hnames & Hdata).
      exists s'. split; [done|]. split; [done|].
      intros c. rewrite Hdata.
      destruct (df_get c (data s)) as [[values| |]|] eqn:Hc; try done.
      destruct (decide (c ∈ rest)) as [Hin|Hin].
      * rewrite decide_True; [done|by right].
      * rewrite decide_False; [done|].
        rewrite elem_of_cons. intros [->|?]; [|done].
        rewrite Hc in Hx. injection Hx as <-. by destruct (Hno values).
Qed.

(** The loop does nothing on a table whose visited columns are all numeric. *)
Lemma build_loop_numeric (cols : list string) (s : Store) :
  (∀ c, c ∈ cols → ∃ x, df_get c (data s) = Some x ∧ ∀ values, x ≠ ObjectCol values) →
  build_loop cols s = (Ok tt, s).
Proof.
  induction cols as [|col rest IH]; intros Hnum; simpl; [done|].
  rewrite bind_run. destruct (Hnum col) as (x & Hx & Hno); [left|].
  rewrite (build_step_other col x s Hx Hno). apply IH.
  intros c Hc. apply Hnum. by right.
Qed.

(** Decoding the codes that [transform] gave returns the labels. *)
Lemma inverse_transform_transform (y0 y : list string) (codes : list Z) :
  transform (fit y0) y = Ok codes →
  inverse_transform (fit y0) codes = Ok y ∧ length codes = length y ∧
  Forall (λ c, 0 ≤ c < Z.of_nat (length (unique y0))) codes.
Proof.
  revert codes. induction y as [|v y IH]; intros codes; simpl.
  - by intros [= <-].
  - destruct (encode_label (fit y0) v) as [c|] eqn:Hc; [|done]. simpl.
    destruct (transform (fit y0) y) as [cs|] eqn:Hcs; [|done]. simpl.
    intros [= <-]. destruct (IH cs eq_refl) as (Hinv & Hlen & Hall).
    apply encode_label_Ok in Hc as (i & -> & Hi). simpl in Hi.
    simpl. unfold decode_label. rewrite decide_True by lia.
    rewrite Nat2Z.id. simpl. rewrite Hi, Hinv. simpl.
    split; [done|]. split; [by rewrite Hlen|].
    constructor; [|done]. apply lookup_lt_Some in Hi. lia.
Qed.

Lemma fit_transform_codes (y : list string) :
  transform (fit y) y = Ok (fit_transform y).2.
Proof.
  unfold fit_transform.
  destruct (transform_fit_total y y) as (codes & Hc & _); [done|].
  by rewrite Hc.
Qed.

(** The build replaces every text column by the codes of its values, which
    are as many as the values, lie in [0 .. k-1] for the [k] classes of the
    column's encoder, and decode to the column as it was; the new column is
    an int64 column, except that a text column without values becomes an
    empty float64 column; the build keeps the names and the order of the
    columns. *)
Theorem build_encodes_text_column (s : Store) (F : string) (values : list string) :
  df_get F (data s) = Some (ObjectCol values) →
  ∃ s' le codes,
    build s = (Ok tt, s') ∧
    encoders s' !! F = Some le ∧
    (values ≠ [] → df_get F (data s') = Some (Int64Col codes)) ∧
    (values = [] → codes = [] ∧ df_get F (data s') = Some (Float64Col [])) ∧
    columns (data s') = columns (data s) ∧
    length codes = length values ∧
    Forall (λ c, 0 ≤ c < Z.of_nat (length (classes_ le))) codes ∧
    transform le values = Ok codes ∧
    inverse_transform le codes = Ok values.
Proof.
  intros HF. destruct (build_spec s) as (s' & Hrun & Henc).
  destruct (build_loop_data (columns (data s)) (mkStore (data s) ∅))
    as (s2 & Hrun2 & Hnames & Hdata); [done|].
  unfold build in Hrun. rewrite Hrun2 in Hrun. injection Hrun as ->.
  simpl in Hnames, Hdata.
  exists s', (fit values), (fit_transform values).2.
  pose proof (fit_transform_codes values) as Hcodes.
  destruct (inverse_transform_transform values values _ Hcodes) as (Hinv & Hlen & Hall).
  assert (df_get F (data s') = Some (codes_series (fit_transform values).2)) as Hcol.
  { rewrite Hdata, HF. rewrite decide_True; [done|].
    apply df_get_is_Some. by eauto. }
  split; [exact Hrun2|]. split; [by rewrite Henc, HF|].
  split; [|split; [|by split_and!]].
  - intros Hne. rewrite Hcol.
    destruct (fit_transform values).2 as [|c cs]; [|done].
    destruct values; [done|discriminate].
  - intros ->. rewrite Hcol.
    by destruct (fit_transform []).2 as [|c cs]; [|discriminate].
Qed.

Lemma build_encodes_text_column_witness :
  ∃ s', build ex_store = (Ok tt, s') ∧
        df_get "struct_typ" (data s') = Some (Int64Col [4; 0; 5; 3; 1; 2; 4]).
Proof.
  destruct (build_encodes_text_column ex_store "struct_typ" _ eq_refl)
    as (s' & le & codes & Hb & _ & Hd & _).
  exists s'. split; [exact Hb|].
  assert (s' = (build ex_store).2) as -> by (by rewrite Hb).
  vm_compute. reflexivity.
Defined.

(** The build leaves a numeric column as it is and makes no encoder for it,
    so that encoding a value for that field raises the [KeyError] of the
    missing encoder. *)
Theorem build_skips_numeric_column (s : Store) (F : string) (c : Series) :
  df_get F (data s) = Some c → (∀ values, c ≠ ObjectCol values) →
  ∃ s', build s = (Ok tt, s') ∧
        df_get F (data s') = Some c ∧
        encoders s' !! F = None ∧
        ∀ v, encode F v s' = (Raise (KeyError (StrKey F)), s').
Proof.
  intros HF Hno. destruct (build_spec s) as (s' & Hrun & Henc).
  destruct (build_loop_data (columns (data s)) (mkStore (data s) ∅))
    as (s2 & Hrun2 & Hnames & Hdata); [done|].
  unfold build in Hrun. rewrite Hrun2 in Hrun. injection Hrun as ->.
  simpl in Hdata.
  assert (encoders s' !! F = None) as HencF.
  { rewrite Henc, HF. destruct c; [by destruct (Hno values)|done..]. }
  exists s'. split; [exact Hrun2|]. split; [|split; [done|]].
  - rewrite Hdata, HF. destruct c; [by destruct (Hno values)|done..].
  - intros v. by apply encode_missing.
Qed.

Lemma build_skips_numeric_column_witness :
  ∃ s', build ex_store = (Ok tt, s') ∧
        encode "year_built" "2000" s'
          = (Raise (KeyError (StrKey "year_built")), s').
Proof.
  destruct (build_skips_numeric_column ex_store "year_built" _ eq_refl)
    as (s' & Hb & _ & _ & He).
  - intros values. discriminate.
  - exists s'. split; [exact Hb|apply He].
Defined.

(** A second build on the table that a build has left finds no text column
    that a lookup by name reaches: it leaves the table as it is and empties
    [encoders], so that every later encode raises a [KeyError]. *)
Theorem build_twice_loses_encoders (s s' : Store) :
  build s = (Ok tt, s') →
  build s' = (Ok tt, mkStore (data s') ∅) ∧
  ∀ F v, encode F v (mkStore (data s') ∅)
         = (Raise (KeyError (StrKey F)), mkStore (data s') ∅).
Proof.
  intros Hrun.
  destruct (build_loop_data (columns (data s)) (mkStore (data s) ∅))
    as (s2 & Hrun2 & Hnames & Hdata); [done|].
  unfold build in Hrun. rewrite Hrun2 in Hrun. injection Hrun as ->.
  simpl in Hnames, Hdata. split.
  - unfold build. apply build_loop_numeric. simpl. intros c Hc.
    rewrite Hnames in Hc. pose proof Hc as Hc'.
    apply df_get_is_Some in Hc as [x Hx]. rewrite Hdata, Hx.
    destruct x as [values| |].
    + rewrite decide_True by done. eexists. split; [done|].
      intros ?. apply codes_series_numeric.
    + eexists. split; [done|]. by intros ?.
    + eexists. split; [done|]. by intros ?.
  - intros F v. by apply encode_missing.
Qed.

Lemma build_twice_loses_encoders_witness :
  let s' := (build ex_store).2 in
  build s' = (Ok tt, mkStore (data s') ∅) ∧
  encode "struct_typ" "URM" s' = (Ok 4, s') ∧
  encode "struct_typ" "URM" (build s').2
    = (Raise (KeyError (StrKey "struct_typ")), (build s').2).
Proof.
  intros s'.
  assert (build ex_store = (Ok tt, s')) as Hb by (vm_compute; reflexivity).
  destruct (build_twice_loses_encoders ex_store s' Hb) as [H2 Hk].
  split; [exact H2|]. split; [vm_compute; reflexivity|].
  rewrite H2. apply Hk.
Defined.

(** After the build, a value is encoded for a field exactly when the field
    is a text column of the table and the value occurs in it. *)
Theorem encode_ok_iff (s : Store) (F v : string) :
  ∃ s', build s = (Ok tt, s') ∧
        ((∃ c, encode F v s' = (Ok c, s')) ↔
         (∃ values, df_get F (data s) = Some (ObjectCol values) ∧ v ∈ values)).
Proof.
  destruct (build_spec s) as (s' & Hrun & Henc). exists s'. split; [done|].
  specialize (Henc F). split.
  - intros [c Hc].
    destruct (df_get F (data s)) as [[values| |]|] eqn:HF;
      try (by rewrite (encode_missing F v s' Henc) in Hc).
    exists values. split; [done|].
    rewrite (encode_run F v _ s' Henc) in Hc. injection Hc as Hc.
    apply encode_label_Ok in Hc as (i & _ & Hi).
    eapply elem_of_unique, list_elem_of_lookup_2, Hi.
  - intros (values & HF & Hv). rewrite HF in Henc.
    destruct (encode_label_seen (fit values) v) as (i & Hi & _).
    { by apply elem_of_unique. }
    exists (Z.of_nat i). by rewrite (encode_run F v _ s' Henc), Hi.
Qed.

End build_data.

(** ** Start of the script *)

(** Lines 749-750 and 829-834 on the table read from the CSV file: without
    the index column [Unnamed: 0] the drop raises a [KeyError] and nothing is
    built; with it the build succeeds, the index column has no encoder
    whatever its dtype, and every other field has the encoder fitted on its
    text column, and none when it is numeric or absent. *)
Theorem startup_index_column (csv : DataFrame) (F : string) :
  (startup csv).1 =
    (if decide ("Unnamed: 0" ∈ columns csv) then Ok tt
     else Raise (KeyError (StrKey "Unnamed: 0"))) ∧
  encoders (startup csv).2 !! F =
    (if decide ("Unnamed: 0" ∈ columns csv) then
       if decide (F = "Unnamed: 0") then None
       else match df_get F csv with
            | Some (ObjectCol values) => Some (LabelEncoder.fit values)
            | _ => None
            end
     else None).
Proof.
  unfold startup. destruct (df_drop "Unnamed: 0" csv) as [d|e] eqn:Hdrop.
  - assert ("Unnamed: 0" ∈ columns csv) as Hin.
    { unfold df_drop in Hdrop. by case_decide. }
    rewrite !(decide_True _ _ Hin).
    destruct (build_spec (mkStore d ∅)) as (s' & Hrun & Henc).
    rewrite Hrun. cbn [fst snd]. split; [done|]. rewrite Henc. cbn [data].
    destruct (decide (F = "Unnamed: 0")) as [->|HF].
    + by rewrite (df_get_drop_eq _ _ _ Hdrop).
    + rewrite (df_get_drop_ne _ _ _ _ Hdrop); [done|congruence].
  - unfold df_drop in Hdrop. case_decide as Hin; [done|].
    injection Hdrop as <-. cbn [fst snd encoders]. split; [done|apply lookup_empty].
Qed.

(** ** Lookups in the catalogs *)

Lemma getitem_Ok_elem {K V} `{EqDecision K, AsKey K} (k : K) (v : V) (d : dict K V) :
  getitem d k = Ok v → (k, v) ∈ d.
Proof.
  unfold getitem. destruct (dict_lookup k d) as [w|] eqn:Hw; [|done].
  intros [= <-]. by apply dict_lookup_elem.
Qed.

Lemma getitem_not_keys {K V} `{EqDecision K, AsKey K} (k : K) (d : dict K V) :
  k ∉ keys d → getitem d k = Raise (KeyError (as_key k)).
Proof.
  intros Hk. unfold getitem. destruct (dict_lookup k d) as [w|] eqn:Hw; [|done].
  destruct Hk. apply dict_lookup_elem in Hw.
  apply list_elem_of_fmap. by exists (k, w).
Qed.

Lemma getitem_elem_NoDup {K V} `{EqDecision K, AsKey K} (k : K) (v : V) (d : dict K V) :
  NoDup (keys d) → (k, v) ∈ d → getitem d k = Ok v.
Proof.
  unfold getitem, keys. induction d as [|[k' v'] d IH]; simpl.
  - by rewrite elem_of_nil.
  - rewrite NoDup_cons, elem_of_cons. intros [Hk' Hnd] [Heq|Hin].
    + injection Heq as -> ->. by rewrite decide_True.
    + rewrite decide_False; [by apply IH|].
      intros ->. apply Hk'. apply list_elem_of_fmap. by exists (k, v).
Qed.

Lemma dict_values_inj {K V} (k1 k2 : K) (v : V) (d : dict K V) :
  NoDup (d.*2) → (k1, v) ∈ d → (k2, v) ∈ d → k1 = k2.
Proof.
  induction d as [|[k' v'] d IH]; simpl.
  - by rewrite elem_of_nil.
  - rewrite NoDup_cons, !elem_of_cons. intros [Hv' Hnd] [H1|H1] [H2|H2].
    + congruence.
    + injection H1 as -> ->. destruct Hv'. apply list_elem_of_fmap. by exists (k2, v').
    + injection H2 as -> ->. destruct Hv'. apply list_elem_of_fmap. by exists (k1, v').
    + by apply IH.
Qed.

Lemma elem_of_values {K V} (v : V) (d : dict K V) :
  v ∈ d.*2 → ∃ k, (k, v) ∈ d.
Proof.
  intros Hv. apply list_elem_of_fmap in Hv as ([k w] & -> & Hin). by exists k.
Qed.

(** In a dict without repeated keys and without repeated values, each value
    is the item of exactly one key. *)
Lemma getitem_bijective {K V} `{EqDecision K, AsKey K} (d : dict K V) (v : V) :
  NoDup (keys d) → NoDup (d.*2) →
  (v ∈ d.*2 ↔ ∃ k, getitem d k = Ok v) ∧
  (∀ k1 k2, getitem d k1 = Ok v → getitem d k2 = Ok v → k1 = k2).
Proof.
  intros Hk Hv. split; [split|].
  - intros Hin. destruct (elem_of_values v d Hin) as [k Hkv].
    exists k. by apply getitem_elem_NoDup.
  - intros [k Hget]. apply getitem_Ok_elem in Hget.
    apply list_elem_of_fmap. by exists (k, v).
  - intros k1 k2 H1 H2. apply getitem_Ok_elem in H1, H2.
    by eapply dict_values_inj.
Qed.

Lemma struct_type_display_NoDup (lang : string) :
  NoDup (keys (struct_type_display lang)).
Proof.
  destruct catalogs_NoDup as (_ & _ & _ & _ & Hall). rewrite Forall_forall in Hall.
  unfold struct_type_display.
  destruct (dict_get_cases lang STRUCT_TYPES_BY_LANG STRUCT_TYPES_en) as [Hin| ->].
  - by apply Hall.
  - apply (bool_decide_unpack _). by vm_compute.
Qed.

Lemma occ_type_display_NoDup (lang : string) :
  NoDup (keys (occ_type_display lang)).
Proof.
  destruct catalogs_NoDup as (_ & _ & _ & Hall & _). rewrite Forall_forall in Hall.
  unfold occ_type_display.
  destruct (dict_get_cases lang OCC_TYPES_BY_LANG OCC_TYPES_en) as [Hin| ->].
  - by apply Hall.
  - apply (bool_decide_unpack _). by vm_compute.
Qed.

Lemma occ_families_head_inj (f1 f2 : list string) :
  f1 ∈ occ_families → f2 ∈ occ_families → head f1 = head f2 → f1 = f2.
Proof.
  unfold occ_families. rewrite !elem_of_cons, !elem_of_nil.
  intros H1 H2. destruct_or!; try done; subst; simpl; done.
Qed.

Lemma occ_first_codes_families (code : string) :
  code ∈ occ_first_codes → ∃ rest, (code :: rest) ∈ occ_families.
Proof.
  unfold occ_first_codes, occ_families. rewrite !elem_of_cons, elem_of_nil.
  intros Hc. destruct_or!; try done; subst; eexists;
    rewrite !elem_of_cons; eauto 10.
Qed.

Lemma occ_type_code_Ok (lang label code : string) :
  occ_type_code lang label = Ok code →
  ∃ rest, getitem (occ_type_display lang) label = Ok (code :: rest) ∧
          (code :: rest) ∈ occ_families.
Proof.
  unfold occ_type_code.
  destruct (getitem (occ_type_display lang) label) as [family|] eqn:Hget; [|done].
  simpl. destruct family as [|c rest]; [done|]. intros [= ->].
  exists rest. split; [done|].
  rewrite <- (occ_type_display_families lang).
  apply getitem_Ok_elem in Hget. apply list_elem_of_fmap. by exists (label, code :: rest).
Qed.

(** In every locale, each of the six structural codes is the code of exactly
    one label of the structural selectbox and nothing else is the code of a
    label; each of the seven first occupancy codes is the code of exactly one
    label of the occupancy selectbox and nothing else is. *)
Theorem catalog_labels_bijective (lang code : string) :
  (code ∈ struct_codes ↔ ∃ label, struct_typ lang label = Ok code) ∧
  (∀ l1 l2, struct_typ lang l1 = Ok code → struct_typ lang l2 = Ok code → l1 = l2) ∧
  (code ∈ occ_first_codes ↔ ∃ label, occ_type_code lang label = Ok code) ∧
  (∀ l1 l2, occ_type_code lang l1 = Ok code → occ_type_code lang l2 = Ok code →
            l1 = l2).
Proof.
  assert (NoDup struct_catalog_codes) as Hsn by (apply (bool_decide_unpack _); by vm_compute).
  assert (NoDup occ_families) as Hon by (apply (bool_decide_unpack _); by vm_compute).
  destruct (getitem_bijective (struct_type_display lang) code) as [Hs1 Hs2].
  { apply struct_type_display_NoDup. }
  { by rewrite struct_type_display_codes. }
  rewrite struct_type_display_codes in Hs1.
  split_and!.
  - unfold struct_typ. rewrite <- Hs1. unfold struct_codes, struct_catalog_codes.
    rewrite !elem_of_cons, !elem_of_nil. tauto.
  - exact Hs2.
  - split.
    + intros Hc. destruct (occ_first_codes_families code Hc) as [rest Hfam].
      destruct (getitem_bijective (occ_type_display lang) (code :: rest)) as [[Hex _] _].
      { apply occ_type_display_NoDup. }
      { by rewrite occ_type_display_families. }
      rewrite occ_type_display_families in Hex.
      destruct (Hex Hfam) as [label Hget]. exists label.
      unfold occ_type_code. by rewrite Hget.
    + intros [label Hl]. apply occ_type_code_Ok in Hl as (rest & _ & Hfam).
      by destruct (occ_families_first _ Hfam) as (c & r & [= <- <-] & Hin).
  - intros l1 l2 H1 H2.
    apply occ_type_code_Ok in H1 as (r1 & Hg1 & Hf1).
    apply occ_type_code_Ok in H2 as (r2 & Hg2 & Hf2).
    assert (code :: r1 = code :: r2) as Heq by by apply occ_families_head_inj.
    rewrite <- Heq in Hg2.
    destruct (getitem_bijective (occ_type_display lang) (code :: r1)) as [_ Hinj].
    { apply occ_type_display_NoDup. }
    { by rewrite occ_type_display_families. }
    by apply Hinj.
Qed.

(** Whatever the locale and the label, the occupancy code taken from the
    form is the first code of a family: the sub-codes RES3, RES4, COM2, COM3,
    COM4, COM7, COM8, IND2 and IND3 of the catalogs are never encoded. *)
Theorem occ_subcodes_unreachable (lang label code : string) :
  occ_type_code lang label = Ok code →
  code ∈ occ_first_codes ∧
  code ∉ ["RES3"; "RES4"; "COM2"; "COM3"; "COM4"; "COM7"; "COM8"; "IND2"; "IND3"].
Proof.
  intros Hl. apply occ_type_code_Ok in Hl as (rest & _ & Hfam).
  destruct (occ_families_first _ Hfam) as (c & r & [= <- <-] & Hin).
  split; [done|]. intros Hbad. revert Hin Hbad. unfold occ_first_codes.
  rewrite !elem_of_cons, !elem_of_nil.
  intros Hin Hbad. destruct_or!; try done; subst; discriminate.
Qed.

Lemma occ_subcodes_unreachable_witness :
  occ_type_code "fr" "Industriel" = Ok "IND1" ∧ "IND1" ∈ occ_first_codes.
Proof.
  assert (occ_type_code "fr" "Industriel" = Ok "IND1") as Hl by (vm_compute; reflexivity).
  split; [exact Hl|].
  exact (proj1 (occ_subcodes_unreachable "fr" "Industriel" "IND1" Hl)).
Defined.

(** The two catalogs have an entry for each locale of the language selector,
    in the same order, so that the English default of the two [.get] calls is
    never used for a locale that can be selected; any other locale would get
    the English catalogs. *)
Theorem locale_catalogs_present (lang : string) :
  keys OCC_TYPES_BY_LANG = locales ∧ keys STRUCT_TYPES_BY_LANG = locales ∧
  (if decide (lang ∈ locales)
   then getitem OCC_TYPES_BY_LANG lang = Ok (occ_type_display lang) ∧
        getitem STRUCT_TYPES_BY_LANG lang = Ok (struct_type_display lang)
   else occ_type_display lang = OCC_TYPES_en ∧
        struct_type_display lang = STRUCT_TYPES_en).
Proof.
  assert (keys OCC_TYPES_BY_LANG = locales) as Ho by (by vm_compute).
  assert (keys STRUCT_TYPES_BY_LANG = locales) as Hs by (by vm_compute).
  split; [done|]. split; [done|].
  unfold occ_type_display, struct_type_display, dict_get, getitem.
  case_decide as Hl.
  - destruct (dict_lookup_keys lang OCC_TYPES_BY_LANG) as [x ->]; [by rewrite Ho|].
    destruct (dict_lookup_keys lang STRUCT_TYPES_BY_LANG) as [y ->]; [by rewrite Hs|].
    done.
  - destruct (dict_lookup lang OCC_TYPES_BY_LANG) as [x|] eqn:Hx.
    { destruct Hl. rewrite <- Ho. apply dict_lookup_elem in Hx.
      apply list_elem_of_fmap. by exists (lang, x). }
    destruct (dict_lookup lang STRUCT_TYPES_BY_LANG) as [y|] eqn:Hy; [|done].
    destruct Hl. rewrite <- Hs. apply dict_lookup_elem in Hy.
    apply list_elem_of_fmap. by exists (lang, y).
Qed.

(** ** The row of a form *)

Lemma form_X_run (lang : string) (f : FormInput) (s : Store) :
  form_X lang f s =
    match struct_typ lang (struct_display_choice f) with
    | Raise e => (Raise e, s)
    | Ok st =>
        match occ_type_code lang (occ_choice f) with
        | Raise e => (Raise e, s)
        | Ok oc =>
            assemble st oc (year_built f) (no_stories f) (magnitude f) (distance f) s
        end
    end.
Proof.
  unfold form_X, lift. rewrite bind_run.
  destruct (struct_typ lang (struct_display_choice f)); [|done].
  rewrite bind_run. by destruct (occ_type_code lang (occ_choice f)).
Qed.

(** On the encoders built from a table with the two text columns
    [struct_typ] and [occ_type], the row [X] of a form is built exactly when
    both labels are in the locale's catalogs and the codes they resolve to
    occur in the respective column. *)
Theorem form_X_ok_iff (s : Store) (sv ov : list string) (lang : string)
    (f : FormInput) :
  df_get "struct_typ" (data s) = Some (ObjectCol sv) →
  df_get "occ_type" (data s) = Some (ObjectCol ov) →
  ∃ s', build s = (Ok tt, s') ∧
        ((∃ X, form_X lang f s' = (Ok X, s')) ↔
         (∃ st oc, struct_typ lang (struct_display_choice f) = Ok st ∧
                   occ_type_code lang (occ_choice f) = Ok oc ∧
                   st ∈ sv ∧ oc ∈ ov)).
Proof.
  intros Hsv Hov. destruct (build_spec s) as (s' & Hrun & Henc).
  pose proof (Henc "struct_typ") as Hes. rewrite Hsv in Hes.
  pose proof (Henc "occ_type") as Heo. rewrite Hov in Heo.
  exists s'. split; [done|]. rewrite form_X_run.
  destruct (struct_typ lang (struct_display_choice f)) as [st|e] eqn:Hst.
  2: { split; [by intros [X ?]|by intros (? & ? & ? & _)]. }
  destruct (occ_type_code lang (occ_choice f)) as [oc|e] eqn:Hoc.
  2: { split; [by intros [X ?]|by intros (? & ? & _ & ? & _)]. }
  rewrite assemble_run.
  rewrite (encode_run _ _ _ _ Hes), (encode_run _ _ _ _ Heo). simpl.
  split.
  - intros [X HX].
    destruct (LabelEncoder.encode_label (LabelEncoder.fit sv) st) as [a|] eqn:Ha; [|done].
    destruct (LabelEncoder.encode_label (LabelEncoder.fit ov) oc) as [b|] eqn:Hb; [|done].
    apply encode_label_Ok in Ha as (i & _ & Hi).
    apply encode_label_Ok in Hb as (j & _ & Hj).
    exists st, oc. split_and!; try done.
    + eapply elem_of_unique, list_elem_of_lookup_2, Hi.
    + eapply elem_of_unique, list_elem_of_lookup_2, Hj.
  - intros (st' & oc' & [= <-] & [= <-] & Hin_s & Hin_o).
    destruct (encode_label_seen (LabelEncoder.fit sv) st) as (i & -> & _).
    { simpl. by apply elem_of_unique. }
    destruct (encode_label_seen (LabelEncoder.fit ov) oc) as (j & -> & _).
    { simpl. by apply elem_of_unique. }
    by eexists.
Qed.

Lemma form_X_ok_iff_witness :
  ∃ s', build ex_store = (Ok tt, s') ∧
        ∃ X, form_X "en" (mkForm "Wooden Frame (W1)" "Religious" 1999 2 (6#1) (10#1)) s'
             = (Ok X, s').
Proof.
  destruct (form_X_ok_iff ex_store _ _ "en"
              (mkForm "Wooden Frame (W1)" "Religious" 1999 2 (6#1) (10#1))
              eq_refl eq_refl) as (s' & Hb & Hiff).
  exists s'. split; [exact Hb|]. apply Hiff.
  exists "W1", "REL1".
  split; [vm_compute; reflexivity|]. split; [vm_compute; reflexivity|].
  split; apply (bool_decide_unpack _); vm_compute; reflexivity.
Defined.

(** A label that is not in the locale's catalog makes the script raise the
    [KeyError] of that label before any encoder is used, whatever the
    encoders contain; when both labels are unknown the error names the
    structural one. *)
Theorem form_X_unknown_label (lang : string) (f : FormInput) (s : Store) :
  struct_display_choice f ∉ keys (struct_type_display lang) ∨
  occ_choice f ∉ keys (occ_type_display lang) →
  ∃ label,
    form_X lang f s = (Raise (KeyError (StrKey label)), s) ∧
    (struct_display_choice f ∉ keys (struct_type_display lang) →
       label = struct_display_choice f) ∧
    (struct_display_choice f ∈ keys (struct_type_display lang) →
       label = occ_choice f).
Proof.
  intros Hbad. rewrite form_X_run.
  destruct (decide (struct_display_choice f ∈ keys (struct_type_display lang)))
    as [Hin|Hnin].
  - destruct Hbad as [?|Ho]; [done|].
    destruct (struct_typ_keys lang _ Hin) as (st & -> & _).
    unfold occ_type_code. rewrite (getitem_not_keys _ _ Ho). simpl.
    exists (occ_choice f). by split_and!.
  - unfold struct_typ. rewrite (getitem_not_keys _ _ Hnin).
    exists (struct_display_choice f). by split_and!.
Qed.

Lemma form_X_unknown_label_witness :
  form_X "de" (mkForm "Wooden Frame (W1)" "Residential" 2000 0 (5#1) (3#1)) ex_store
  = (Raise (KeyError (StrKey "Wooden Frame (W1)")), ex_store).
Proof.
  assert ("Wooden Frame (W1)" ∉ keys (struct_type_display "de")) as Hno.
  { apply (bool_decide_unpack _). vm_compute. reflexivity. }
  destruct (form_X_unknown_label "de"
              (mkForm "Wooden Frame (W1)" "Residential" 2000 0 (5#1) (3#1))
              ex_store (or_introl Hno)) as (label & Hrun & Hs & _).
  rewrite Hrun, (Hs Hno). reflexivity.
Defined.

(** ** The form as first shown *)

Lemma getitem_head {K V} `{EqDecision K, AsKey K} (d : dict K V) (v : V) :
  head (d.*2) = Some v →
  ∃ k, head (keys d) = Some k ∧ getitem d k = Ok v.
Proof.
  destruct d as [|[k w] d]; simpl; [done|]. intros [= ->].
  exists k. split; [done|]. unfold getitem. simpl. by rewrite decide_True.
Qed.

(** In every locale the untouched form selects the label of URM and the
    label of the residential family, which resolves to RES1, with the year
    2000, no story, magnitude 5 and distance 3; on encoders that know URM and
    RES1 its row is built from their two codes and these four numbers. *)
Theorem default_form_row (lang : string) :
  ∃ f, default_form lang = Some f ∧
       struct_typ lang (struct_display_choice f) = Ok "URM" ∧
       occ_type_code lang (occ_choice f) = Ok "RES1" ∧
       year_built f = 2000 ∧ no_stories f = 0 ∧
       magnitude f = 5#1 ∧ distance f = 3#1 ∧
       ∀ s a b,
         (encode "struct_typ" "URM" s).1 = Ok a →
         (encode "occ_type" "RES1" s).1 = Ok b →
         form_X lang f s
           = (Ok [[inject_Z a; inject_Z b; 2000#1; 0#1; 5#1; 3#1]]%Q, s).
Proof.
  destruct (getitem_head (struct_type_display lang) "URM") as (sl & Hsl & Hs).
  { by rewrite struct_type_display_codes. }
  destruct (getitem_head (occ_type_display lang) ["RES1"; "RES3"; "RES4"])
    as (ol & Hol & Ho).
  { by rewrite occ_type_display_families. }
  exists (mkForm sl ol 2000 0 (5#1) (3#1)).
  assert (occ_type_code lang ol = Ok "RES1") as Hoc.
  { unfold occ_type_code. by rewrite Ho. }
  split_and!; try done.
  - unfold default_form, selectbox_default. by rewrite Hsl, Hol.
  - intros s a b Ha Hb. rewrite form_X_run. simpl.
    unfold struct_typ. rewrite Hs, Hoc. by rewrite assemble_run, Ha, Hb.
Qed.

(** ** The texts of the page *)

Lemma texts_all_present :
  Forall (λ lang, Forall (λ key, is_ok (text lang key) = true) text_keys) locales.
Proof. apply (bool_decide_unpack _). by vm_compute. Qed.

Lemma texts_all_nonempty :
  Forall (λ lang, Forall (λ key, text lang key ≠ Ok "") text_keys) locales.
Proof. apply (bool_decide_unpack _). by vm_compute. Qed.

Lemma texts_three_agree :
  Forall (λ lang, Forall (λ key, label_of lang key = text lang key)
                         ["safe"; "high_risk"; "collapsed"]) locales.
Proof. apply (bool_decide_unpack _). by vm_compute. Qed.

(** Every locale of the language selector has a non-empty text for every key
    that the script reads, so that no text lookup raises a [KeyError]; no
    locale defines a key twice or a key that the script does not read; and a
    locale that is not in the table has no text at all. *)
Theorem texts_complete (lang key : string) :
  keys TRANSLATIONS_all = locales ∧
  Forall (λ t : dict string string,
            NoDup (keys t) ∧ Forall (λ k, k ∈ text_keys) (keys t))
         (TRANSLATIONS_all.*2) ∧
  (lang ∈ locales → key ∈ text_keys → ∃ s, text lang key = Ok s ∧ s ≠ "") ∧
  (lang ∉ locales → text lang key = Raise (KeyError (StrKey lang))).
Proof.
  assert (keys TRANSLATIONS_all = locales) as Hk by (by vm_compute).
  split; [done|]. split; [apply (bool_decide_unpack _); by vm_compute|]. split.
  - intros Hl Hkey.
    pose proof texts_all_present as Hp. pose proof texts_all_nonempty as Hn.
    rewrite Forall_forall in Hp, Hn.
    specialize (Hp lang Hl). specialize (Hn lang Hl).
    rewrite Forall_forall in Hp, Hn.
    specialize (Hp key Hkey). specialize (Hn key Hkey).
    destruct (text lang key) as [s|]; [|done].
    exists s. split; [done|]. by intros ->.
  - intros Hl. unfold text. rewrite getitem_not_keys; [done|]. by rewrite Hk.
Qed.

(** The three texts that [damage_map] reads are those of the whole table. *)
Lemma damage_texts_agree (lang key : string) :
  key ∈ ["safe"; "high_risk"; "collapsed"] → label_of lang key = text lang key.
Proof.
  intros Hkey. destruct (decide (lang ∈ locales)) as [Hl|Hl].
  - pose proof texts_three_agree as Hall. rewrite Forall_forall in Hall.
    specialize (Hall lang Hl). rewrite Forall_forall in Hall. by apply Hall.
  - unfold label_of, text. rewrite !getitem_not_keys; [done|..].
    + by replace (keys TRANSLATIONS_all) with locales by (by vm_compute).
    + done.
Qed.

(** ** Displayed classes *)

(** Two labels that are displayed as the same damage class are the same
    label: the three classes of a locale never share their text, because
    their coloured marks differ. *)
Theorem damage_class_injective (lang : string) (p q : Z) (shown : string) :
  damage_class lang p = Ok shown → damage_class lang q = Ok shown → p = q.
Proof.
  unfold damage_class.
  destruct (getitem TRANSLATIONS lang) as [t|]; simpl; [|done].
  unfold damage_map.
  destruct (getitem t "safe") as [a|]; simpl; [|done].
  destruct (getitem t "high_risk") as [b|]; simpl; [|done].
  destruct (getitem t "collapsed") as [c|]; simpl; [|done].
  rewrite !getitem_three.
  repeat case_decide; subst; try done; intros [= <-]; simpl; intros [= ?]; done.
Qed.

Lemma damage_class_injective_witness :
  damage_class "en" 1 = Ok "🟠 High Risk" ∧
  ∀ q, damage_class "en" q = Ok "🟠 High Risk" → 1 = q.
Proof.
  assert (damage_class "en" 1 = Ok "🟠 High Risk") as H1 by (vm_compute; reflexivity).
  split; [exact H1|].
  intros q Hq. exact (damage_class_injective "en" 1 q _ H1 Hq).
Defined.

(** ** The landing page *)

Lemma script_run_flag (yes : bool) (ss : session_state) :
  let started := default false (ss !! "app_started") in
  (script_run yes ss).1 = (if started || yes then Reached_form else Stopped) ∧
  (script_run yes ss).2 !! "app_started" = Some (started || yes).
Proof.
  unfold script_run, landing_gate, init_session.
  destruct (ss !! "app_started") as [[|]|] eqn:Hss; simpl.
  - by rewrite Hss.
  - rewrite Hss. destruct yes; simpl.
    + repeat (rewrite lookup_insert_eq; simpl). done.
    + done.
  - rewrite lookup_insert_eq. destruct yes; simpl.
    + repeat (rewrite lookup_insert_eq; simpl). done.
    + by rewrite lookup_insert_eq.
Qed.

Lemma play_flag (clicks : list bool) (ss : session_state) :
  default false (play clicks ss !! "app_started")
  = default false (ss !! "app_started") || bool_decide (true ∈ clicks).
Proof.
  revert ss. induction clicks as [|yes clicks IH]; intros ss.
  - rewrite bool_decide_false; [by rewrite orb_false_r|apply not_elem_of_nil].
  - unfold play in *. cbn [foldl]. rewrite IH.
    destruct (script_run_flag yes ss) as [_ ->]. cbn [default id].
    rewrite <- orb_assoc. f_equal.
    destruct yes; cbn [orb].
    + rewrite bool_decide_true; [done|left].
    + apply bool_decide_ext. rewrite elem_of_cons.
      split; [by right|]. by intros [?|?].
Qed.

(** In a session that starts without [app_started], a run of the script
    reaches the form exactly when Yes! is clicked in this run or was clicked
    in an earlier one, and otherwise stops on the landing page; it never ends
    in an error, and after the run [app_started] records whether Yes! has ever
    been clicked, so that it is never reset. *)
Theorem landing_gate_sessions (ss0 : session_state) (clicks : list bool) (yes : bool) :
  ss0 !! "app_started" = None →
  let r := script_run yes (play clicks ss0) in
  (r.1 = Reached_form ↔ true ∈ clicks ∨ yes = true) ∧
  (r.1 = Stopped ↔ ¬ (true ∈ clicks ∨ yes = true)) ∧
  r.1 ≠ Attribute_error ∧ r.1 ≠ Rerun ∧
  r.2 !! "app_started" = Some (bool_decide (true ∈ clicks ∨ yes = true)).
Proof.
  intros Hfresh r.
  destruct (script_run_flag yes (play clicks ss0)) as [H1 H2].
  fold r in H1, H2. rewrite play_flag, Hfresh in H1, H2. simpl in H1, H2.
  rewrite H1, H2.
  destruct (decide (true ∈ clicks)) as [Hc|Hc].
  - rewrite !(bool_decide_true _ Hc). simpl.
    rewrite bool_decide_true by auto. split_and!; try done; intuition congruence.
  - rewrite !(bool_decide_false _ Hc). simpl. destruct yes.
    + rewrite bool_decide_true by auto. split_and!; try done; intuition congruence.
    + rewrite bool_decide_false by intuition congruence.
      split_and!; try done; intuition congruence.
Qed.

Lemma landing_gate_sessions_witness :
  (script_run false (play [false; false] ∅)).1 = Stopped ∧
  (script_run false (play [false; true; false] ∅)).1 = Reached_form.
Proof.
  destruct (landing_gate_sessions ∅ [false; false] false (lookup_empty _))
    as (_ & Hstop & _).
  destruct (landing_gate_sessions ∅ [false; true; false] false (lookup_empty _))
    as (Hform & _).
  split.
  - apply Hstop. rewrite !elem_of_cons, elem_of_nil. intros [H|H]; [|done].
    destruct_or!; done.
  - apply Hform. left. rewrite !elem_of_cons. auto.
Defined.

(** ** The highlighted rows *)

#[local] Instance larger_first_trans : Transitive larger_first.
Proof.
  intros a b c. unfold larger_first.
  intros [H1|[H1 I1]] [H2|[H2 I2]].
  - left. lra.
  - left. lra.
  - left. lra.
  - right. split; [lra|lia].
Qed.

#[local] Instance larger_first_total : Total larger_first.
Proof.
  intros a b. unfold larger_first.
  destruct (Q_dec (Value a.2) (Value b.2)) as [[Hlt|Hgt]|Heq]; [right|left|].
  - by left.
  - by left.
  - destruct (decide (a.1 ≤ b.1)%nat); [left|right]; right;
      (split; [lra|lia]).
Qed.

#[local] Instance smaller_first_trans : Transitive smaller_first.
Proof.
  intros a b c. unfold smaller_first.
  intros [H1|[H1 I1]] [H2|[H2 I2]].
  - left. lra.
  - left. lra.
  - left. lra.
  - right. split; [lra|lia].
Qed.

#[local] Instance smaller_first_total : Total smaller_first.
Proof.
  intros a b. unfold smaller_first.
  destruct (Q_dec (Value a.2) (Value b.2)) as [[Hlt|Hgt]|Heq]; [left|right|].
  - by left.
  - by left.
  - destruct (decide (a.1 ≤ b.1)%nat); [left|right]; right;
      (split; [lra|lia]).
Qed.

Lemma elem_of_with_index (rows : list PerfRow) (i : nat) (r : PerfRow) :
  (i, r) ∈ with_index rows ↔ rows !! i = Some r.
Proof.
  unfold with_index. rewrite elem_of_lookup_imap. split.
  - by intros (j & y & [= -> ->] & Hy).
  - intros Hi. by exists i, r.
Qed.

Lemma elem_of_loc_metric (m : string) (rows : list PerfRow) (i : nat) (r : PerfRow) :
  (i, r) ∈ loc_metric m (with_index rows) ↔ rows !! i = Some r ∧ Metric_Type r = m.
Proof.
  unfold loc_metric. rewrite list_elem_of_filter, elem_of_with_index. simpl. tauto.
Qed.

Lemma size_list_to_set_le (l : list nat) :
  (size (list_to_set l : gset nat) ≤ length l)%nat.
Proof.
  induction l as [|x l IH].
  - rewrite list_to_set_nil, size_empty. done.
  - rewrite list_to_set_cons. cbn [length].
    destruct (decide (x ∈ (list_to_set l : gset nat))) as [Hin|Hnin].
    + rewrite (subseteq_union_1_L {[x]} (list_to_set l)); [lia|].
      by apply singleton_subseteq_l.
    + rewrite size_union by set_solver. rewrite size_singleton. lia.
Qed.

(** The first [n] records of a sorted frame come before all the others. *)
Lemma sorted_take_first (R : relation (nat * PerfRow)) `{!RelDecision R}
    `{!Transitive R} `{!Total R} (n : nat) (df : list (nat * PerfRow))
    (a b : nat * PerfRow) :
  a ∈ take n (merge_sort R df) → b ∈ df → b ∉ take n (merge_sort R df) → R a b.
Proof.
  intros Ha Hb Hnb.
  pose proof (StronglySorted_merge_sort R df) as Hs.
  rewrite <- (take_drop n (merge_sort R df)) in Hs.
  apply (StronglySorted_app_1_elem_of R _ _ a b Hs Ha).
  rewrite <- (merge_sort_Permutation R df) in Hb.
  rewrite <- (take_drop n (merge_sort R df)) in Hb.
  apply elem_of_app in Hb as [?|?]; done.
Qed.

Lemma take_sorted_subset (R : relation (nat * PerfRow)) `{!RelDecision R}
    (n : nat) (df : list (nat * PerfRow)) (a : nat * PerfRow) :
  a ∈ take n (merge_sort R df) → a ∈ df.
Proof.
  intros Ha. rewrite <- (merge_sort_Permutation R df).
  rewrite <- (take_drop n (merge_sort R df)). apply elem_of_app. by left.
Qed.

Lemma elem_of_top (R : relation (nat * PerfRow)) `{!RelDecision R}
    (m : string) (rows : list PerfRow) (i : nat) (r : PerfRow) :
  rows !! i = Some r →
  i ∈ (take 2 (merge_sort R (loc_metric m (with_index rows)))).*1 ↔
  (i, r) ∈ take 2 (merge_sort R (loc_metric m (with_index rows))).
Proof.
  intros Hi. rewrite list_elem_of_fmap. split.
  - intros ([j r'] & -> & Hin). simpl in *.
    pose proof (take_sorted_subset R _ _ _ Hin) as Hdf.
    apply elem_of_loc_metric in Hdf as [Hj _]. by simplify_eq.
  - intros Hin. by exists (i, r).
Qed.

Lemma top_metric (R : relation (nat * PerfRow)) `{!RelDecision R}
    (m : string) (rows : list PerfRow) (i : nat) :
  i ∈ (take 2 (merge_sort R (loc_metric m (with_index rows)))).*1 →
  ∃ r, rows !! i = Some r ∧ Metric_Type r = m.
Proof.
  rewrite list_elem_of_fmap. intros ([j r] & -> & Hin). simpl.
  apply take_sorted_subset, elem_of_loc_metric in Hin. by exists r.
Qed.

Lemma with_index_offset_fst (n : nat) (rows : list PerfRow) :
  (imap (λ i r, ((n + i)%nat, r)) rows).*1 = seq n (length rows).
Proof.
  revert n. induction rows as [|r rows IH]; intros n; [done|].
  rewrite imap_cons. cbn [fmap list_fmap fst length seq].
  rewrite Nat.add_0_r. f_equal.
  rewrite <- (IH (S n)). f_equal. apply imap_ext. intros i x _. simpl.
  f_equal. lia.
Qed.

Lemma with_index_NoDup (rows : list PerfRow) : NoDup (with_index rows).*1.
Proof.
  unfold with_index. pose proof (with_index_offset_fst 0 rows) as Hfst.
  cbn [Nat.add] in Hfst. rewrite Hfst. apply NoDup_seq.
Qed.

Lemma loc_metric_offset_snd (m : string) (n : nat) (rows : list PerfRow) :
  (loc_metric m (imap (λ i r, ((n + i)%nat, r)) rows)).*2
  = filter (λ r, Metric_Type r = m) rows.
Proof.
  unfold loc_metric. revert n. induction rows as [|r rows IH]; intros n; [done|].
  rewrite imap_cons, !filter_cons. cbn [snd].
  assert (imap ((λ i r0, ((n + i)%nat, r0)) ∘ S) rows
          = imap (λ i r0, ((S n + i)%nat, r0)) rows) as ->.
  { apply imap_ext. intros i x _. simpl. f_equal. lia. }
  case_decide; cbn [fmap list_fmap snd]; by rewrite (IH (S n)).
Qed.

Lemma length_loc_metric (m : string) (rows : list PerfRow) :
  length (loc_metric m (with_index rows))
  = length (filter (λ r, Metric_Type r = m) rows).
Proof.
  pose proof (loc_metric_offset_snd m 0 rows) as Hsnd. cbn [Nat.add] in Hsnd.
  unfold with_index. rewrite <- Hsnd. by rewrite length_fmap.
Qed.

Lemma top_NoDup (R : relation (nat * PerfRow)) `{!RelDecision R}
    (m : string) (rows : list PerfRow) :
  NoDup (take 2 (merge_sort R (loc_metric m (with_index rows)))).*1.
Proof.
  eapply sublist_NoDup; [|apply fmap_sublist, sublist_take].
  rewrite (merge_sort_Permutation R).
  eapply sublist_NoDup; [apply with_index_NoDup|].
  apply fmap_sublist. unfold loc_metric. apply sublist_filter.
Qed.

Lemma length_top (R : relation (nat * PerfRow)) `{!RelDecision R}
    (m : string) (rows : list PerfRow) :
  length (take 2 (merge_sort R (loc_metric m (with_index rows)))).*1
  = Nat.min 2 (length (filter (λ r, Metric_Type r = m) rows)).
Proof.
  rewrite length_fmap, length_take.
  by rewrite (Permutation_length (merge_sort_Permutation R _)), length_loc_metric.
Qed.

(** Whatever the records of the table: the highlighted rows are the rows of
    [acc_top] and of [mae_top], at most four; [acc_top] holds as many
    Accuracy rows as there are, up to two, none twice, and [mae_top] as many
    MAE rows, up to two; an Accuracy row in [acc_top] has a value at least as
    large as any Accuracy row outside it, and among equal values it is the
    earlier row; a MAE row in [mae_top] has a value at most as large as any MAE
    row outside it, with the same rule for equal values.  A highlighted
    record gets the highlight colour on odd and on even table rows alike,
    and the others are striped by the parity of the table row. *)
Theorem highlight_rows_best (rows : list PerfRow) :
  (size (highlight_rows rows) ≤ 4)%nat ∧
  (∀ i, i ∈ highlight_rows rows ↔ i ∈ acc_top rows ∨ i ∈ mae_top rows) ∧
  length (acc_top rows)
    = Nat.min 2 (length (filter (λ r, Metric_Type r = "Accuracy") rows)) ∧
  length (mae_top rows)
    = Nat.min 2 (length (filter (λ r, Metric_Type r = "MAE") rows)) ∧
  NoDup (acc_top rows) ∧ NoDup (mae_top rows) ∧
  (∀ i, i ∈ acc_top rows → ∃ r, rows !! i = Some r ∧ Metric_Type r = "Accuracy") ∧
  (∀ i, i ∈ mae_top rows → ∃ r, rows !! i = Some r ∧ Metric_Type r = "MAE") ∧
  (∀ i j ri rj,
     rows !! i = Some ri → rows !! j = Some rj → Metric_Type rj = "Accuracy" →
     i ∈ acc_top rows → j ∉ acc_top rows →
     Qle (Value rj) (Value ri) ∧ (Qeq (Value ri) (Value rj) → (i < j)%nat)) ∧
  (∀ i j ri rj,
     rows !! i = Some ri → rows !! j = Some rj → Metric_Type rj = "MAE" →
     i ∈ mae_top rows → j ∉ mae_top rows →
     Qle (Value ri) (Value rj) ∧ (Qeq (Value ri) (Value rj) → (i < j)%nat)) ∧
  (∀ i k, i ∈ highlight_rows rows →
     facecolor (highlight_rows rows) k i = "#d9fbe5") ∧
  (∀ j k, j ∉ highlight_rows rows →
     facecolor (highlight_rows rows) k j
       = (if decide (k `mod` 2 = 0)%nat then "#f2f5f7" else "white")).
Proof.
  assert (∀ i, i ∈ highlight_rows rows ↔ i ∈ acc_top rows ∨ i ∈ mae_top rows) as Hhl.
  { intros i. unfold highlight_rows. by rewrite elem_of_list_to_set, elem_of_app. }
  split_and!.
  - unfold highlight_rows. etrans; [apply size_list_to_set_le|].
    rewrite length_app. unfold acc_top, mae_top, nlargest, nsmallest.
    rewrite !length_fmap, !length_take. lia.
  - exact Hhl.
  - apply (length_top larger_first).
  - apply (length_top smaller_first).
  - apply (top_NoDup larger_first).
  - apply (top_NoDup smaller_first).
  - intros i. apply (top_metric larger_first).
  - intros i. apply (top_metric smaller_first).
  - intros i j ri rj Hi Hj Hmj Hin Hnin.
    unfold acc_top, nlargest in Hin, Hnin.
    apply (elem_of_top larger_first "Accuracy" rows i ri Hi) in Hin.
    assert (larger_first (i, ri) (j, rj)) as Hord.
    { eapply (sorted_take_first larger_first); [exact Hin| |].
      - by apply elem_of_loc_metric.
      - intros Hbad. apply Hnin.
        by apply (elem_of_top larger_first "Accuracy" rows j rj Hj). }
    assert (i ≠ j) as Hne.
    { intros ->. apply Hnin, list_elem_of_fmap. by exists (j, ri). }
    destruct Hord as [Hlt|[Heq Hle]]; simpl in *.
    + split; [lra|]. intros Heq. lra.
    + split; [lra|]. intros _. lia.
  - intros i j ri rj Hi Hj Hmj Hin Hnin.
    unfold mae_top, nsmallest in Hin, Hnin.
    apply (elem_of_top smaller_first "MAE" rows i ri Hi) in Hin.
    assert (smaller_first (i, ri) (j, rj)) as Hord.
    { eapply (sorted_take_first smaller_first); [exact Hin| |].
      - by apply elem_of_loc_metric.
      - intros Hbad. apply Hnin.
        by apply (elem_of_top smaller_first "MAE" rows j rj Hj). }
    assert (i ≠ j) as Hne.
    { intros ->. apply Hnin, list_elem_of_fmap. by exists (j, ri). }
    destruct Hord as [Hlt|[Heq Hle]]; simpl in *.
    + split; [lra|]. intros Heq. lra.
    + split; [lra|]. intros _. lia.
  - intros i k Hin. unfold facecolor. by rewrite decide_True.
  - intros j k Hnin. unfold facecolor.
    by rewrite (decide_False (P := j ∈ highlight_rows rows)).
Qed.
